(** * go-appsettings: the Composer and its Read pipeline

    A shallow embedding of [package appsettings] (the [Composer] type, its
    constructor [NewComposerWithReader], the two fluent setters and
    [Composer.Read]) together with the small part of Go's [errors], [io]
    and [os] packages that this code calls.

    Conventions of the embedding:
    - a Go [error] interface value is [option error]; [None] is [nil];
    - a [*Composer] is [option loc]; the pointed-to structs live in a heap
      ([gmap loc Composer]), because the setters mutate their receiver
      and hand the same pointer back;
    - the collaborators that the package only consumes through interfaces
      ([io.ReadCloser], [EnvUpdater], [Validator]) are records of their
      observable behaviour, and every call made on one of them is appended
      to an event log, so that "was never called" is a statement about
      the log;
    - [json.Unmarshal] and [os.Open] are parameters of the development. *)

From Stdlib Require Import String Ascii List Bool.
From Stdlib Require Strings.Byte.
From stdpp Require Import base option list strings gmap.
Import ListNotations.

Local Open Scope string_scope.
Local Open Scope list_scope.
Set Warnings "-register-all".

(** ** Go error values *)

(** The nine package-level values created with [errors.New] in the [var]
    block.  Each is a distinct pointer, so each is its own identity. *)
Inductive Sentinel : Type :=
| AppSettingsNil
| SettingsParamNil
| ReaderNil
| OpeningFile
| ClosingFile
| ReadingFile
| UnmarshalingFile
| UpdateSettings
| ValidateSettings.

#[global] Instance Sentinel_eq_dec : EqDecision Sentinel.
Proof. solve_decision. Defined.

(** The message each sentinel was created with. *)
Definition sentinel_text (k : Sentinel) : string :=
  match k with
  | AppSettingsNil => "appsettings instance is nil"
  | SettingsParamNil => "settings parameter is nil"
  | ReaderNil => "no settings reader provided"
  | OpeningFile => "failed to open appsettings file"
  | ClosingFile => "failed to close appsettings file"
  | ReadingFile => "failed to read appsettings file"
  | UnmarshalingFile => "failed to unmarshal appsettings file"
  | UpdateSettings => "failed to update settings with env vars"
  | ValidateSettings => "failed to validate settings"
  end.

(** A non-nil error value.
    - [Pkg k]: one of the package's own sentinels;
    - [io_EOF]: the [io.EOF] sentinel a reader returns at end of stream;
    - [Foreign msg]: an error made outside the package (an OS error from
      [os.Open], a decoder error, a [fmt.Errorf] of a plugin), known to the
      package only through its [Error()] text;
    - [joinError errs]: the value [errors.Join] builds; [errs] is what its
      [Unwrap() []error] returns. *)
Inductive error : Type :=
| Pkg (k : Sentinel)
| io_EOF
| Foreign (msg : string)
| joinError (errs : list error).

(** [errors.Join]: nil arguments are discarded; the result is nil when
    nothing is left, otherwise a [joinError] of the rest, in order. *)
Definition errors_Join (errs : list (option error)) : option error :=
  match omap id errs with
  | [] => None
  | es => Some (joinError es)
  end.

(** The [Error()] method.  For a [joinError] the texts of the wrapped
    errors are joined with a newline. *)
Fixpoint Error (e : error) : string :=
  match e with
  | Pkg k => sentinel_text k
  | io_EOF => "EOF"
  | Foreign msg => msg
  | joinError errs => String.concat (String "010"%char EmptyString) (map Error errs)
  end.

(** [Unwrap() []error]: only a [joinError] has one. *)
Definition Unwrap (e : error) : list error :=
  match e with
  | joinError errs => errs
  | _ => []
  end.

(** [errors.Is err target] for a sentinel target: the error is the
    sentinel itself, or a [joinError] one of whose members is (depth
    first). *)
Fixpoint errors_Is (e : error) (target : Sentinel) : bool :=
  match e with
  | Pkg k => bool_decide (k = target)
  | io_EOF => false
  | Foreign _ => false
  | joinError errs => existsb (fun e' => errors_Is e' target) errs
  end.

(** The errors at the leaves of the tree of joins, left to right, with
    repetitions: what remains individually inspectable by walking
    [Unwrap]. *)
Fixpoint causes (e : error) : list error :=
  match e with
  | joinError errs => flat_map causes errs
  | _ => [e]
  end.

(** [strings.Contains], as the tests use it on error texts. *)
Fixpoint has_prefix (p s : string) : bool :=
  match p, s with
  | EmptyString, _ => true
  | String a p', String b s' => if Ascii.eqb a b then has_prefix p' s' else false
  | String _ _, EmptyString => false
  end.

Fixpoint Contains (s substr : string) : bool :=
  has_prefix substr s ||
  match s with
  | EmptyString => false
  | String _ s' => Contains s' substr
  end.

(** ** The document source: [io.ReadCloser] and [io.ReadAll] *)

(** What one call of the source's [Read(p)] hands back: the bytes it put
    into [p] and its error result. *)
Record ReadResult : Type := {
  read_bytes : list Byte.byte;
  read_err : option error
}.

(** An [io.ReadCloser], by its behaviour: the results of its successive
    [Read] calls and the result of its [Close]. *)
Record ReadCloser : Type := {
  reader_Read : list ReadResult;
  reader_Close : option error
}.

(** [io.ReadAll]'s loop: call [Read] and append what was read until a call
    reports an error; [io.EOF] is turned into a nil error, any other
    error is returned with the bytes read so far.  A source whose list
    of results runs out has reached its end. *)
Fixpoint ReadAll_loop (reads : list ReadResult) (b : list Byte.byte)
  : list Byte.byte * option error :=
  match reads with
  | [] => (b, None)
  | r :: rest =>
      let b' := b ++ read_bytes r in
      match read_err r with
      | Some io_EOF => (b', None)
      | Some err => (b', Some err)
      | None => ReadAll_loop rest b'
      end
  end.

Definition io_ReadAll (r : ReadCloser) : list Byte.byte * option error :=
  ReadAll_loop (reader_Read r) [].

(** ** Calls on collaborators *)

Inductive event : Type :=
| CallOpen (name : string)
| CallReadAll
| CallClose
| CallUnmarshal (data : list Byte.byte)
| CallUpdate
| CallValidate.

(** Addresses of [Composer] structs. *)
Definition loc : Type := positive.

(** The package variable [DefaultAppSettingsFile], at the value it is
    initialised with. *)
Definition DefaultAppSettingsFile : string := "appsettings.json".

(** ** The package, over an arbitrary settings type *)

Section Appsettings.

(** The value the [settings any] argument points to.  The package never
    looks inside it. *)
Context {Settings : Type}.

(** [json.Unmarshal(data, settings)]: the settings value it leaves behind
    (possibly changed even when it fails) and its error result. *)
Variable json_Unmarshal : list Byte.byte -> Settings -> Settings * option error.

(** [os.Open(name)] in the process's working directory: the opened file or
    the operating system's error. *)
Variable os_Open : string -> ReadCloser + error.

(** The two plugin interfaces.  Both receive the settings pointer, so both
    may change the value as well as report an error. *)
Record EnvUpdater : Type := { Update : Settings -> Settings * option error }.
Record Validator : Type := { Validate : Settings -> Settings * option error }.

Record Composer : Type := {
  jsonReader : option ReadCloser;
  updater : option EnvUpdater;
  validator : option Validator
}.

Definition heap : Type := gmap loc Composer.

(** *** Construction and the fluent setters *)

(** What a constructor call leaves behind: the two results, the heap and
    the calls made on the operating system. *)
Record Constructed : Type := {
  new_ptr : option loc;
  new_err : option error;
  new_heap : heap;
  new_calls : list event
}.

(** [&Composer{...}]: a struct at an address the heap does not use yet. *)
Definition alloc (c : Composer) (h : heap) : loc * heap :=
  let l := fresh (dom h) in (l, <[l := c]> h).

Definition NewComposerWithReader (jsonReadCloser : option ReadCloser) (h : heap)
  : Constructed :=
  let build (r : ReadCloser) (calls : list event) :=
    let '(l, h') := alloc {| jsonReader := Some r; updater := None; validator := None |} h in
    {| new_ptr := Some l; new_err := None; new_heap := h'; new_calls := calls |} in
  match jsonReadCloser with
  | None =>
      match os_Open DefaultAppSettingsFile with
      | inr err =>
          {| new_ptr := None;
             new_err := errors_Join [Some (Pkg OpeningFile); Some err];
             new_heap := h;
             new_calls := [CallOpen DefaultAppSettingsFile] |}
      | inl f => build f [CallOpen DefaultAppSettingsFile]
      end
  | Some r => build r []
  end.

Definition NewComposer (h : heap) : Constructed := NewComposerWithReader None h.

(** The setters assign one field of the struct behind the receiver and
    return the receiver.  [None] is the run-time panic of assigning
    through a nil receiver. *)
Definition WithUpdater (as_ : option loc) (u : option EnvUpdater) (h : heap)
  : option (option loc * heap) :=
  l ← as_;
  c ← h !! l;
  Some (Some l,
        <[l := {| jsonReader := jsonReader c; updater := u; validator := validator c |}]> h).

Definition WithValidator (as_ : option loc) (v : option Validator) (h : heap)
  : option (option loc * heap) :=
  l ← as_;
  c ← h !! l;
  Some (Some l,
        <[l := {| jsonReader := jsonReader c; updater := updater c; validator := v |}]> h).

(** *** Running a method body *)

(** What a call of [Read] can change: the value behind [settings] and the
    log of calls made on the collaborators. *)
Record World : Type := {
  w_settings : Settings;
  w_calls : list event
}.

(** A statement either falls through to the next one with a value, or
    executes a [return] with the value given to the result. *)
Inductive Flow (A : Type) : Type :=
| Next (a : A)
| Return (err : option error).
Arguments Next {A} a.
Arguments Return {A} err.

Definition Exec (A : Type) : Type := World -> Flow A * World.

#[local] Instance Exec_ret : MRet Exec := fun A a w => (Next a, w).
#[local] Instance Exec_bind : MBind Exec := fun A B k m w =>
  match m w with
  | (Next a, w') => k a w'
  | (Return err, w') => (Return err, w')
  end.

Definition return_ {A} (err : option error) : Exec A := fun w => (Return err, w).

Definition logged (e : event) (w : World) : World :=
  {| w_settings := w_settings w; w_calls := w_calls w ++ [e] |}.

Definition call_ReadAll (r : ReadCloser) : Exec (list Byte.byte * option error) :=
  fun w => (Next (io_ReadAll r), logged CallReadAll w).

Definition call_Close (r : ReadCloser) : Exec (option error) :=
  fun w => (Next (reader_Close r), logged CallClose w).

Definition call_Unmarshal (data : list Byte.byte) : Exec (option error) :=
  fun w =>
    let '(s, err) := json_Unmarshal data (w_settings w) in
    (Next err, {| w_settings := s; w_calls := w_calls w ++ [CallUnmarshal data] |}).

Definition call_Update (u : EnvUpdater) : Exec (option error) :=
  fun w =>
    let '(s, err) := Update u (w_settings w) in
    (Next err, {| w_settings := s; w_calls := w_calls w ++ [CallUpdate] |}).

Definition call_Validate (v : Validator) : Exec (option error) :=
  fun w =>
    let '(s, err) := Validate v (w_settings w) in
    (Next err, {| w_settings := s; w_calls := w_calls w ++ [CallValidate] |}).

(** [if err != nil { return f(err) }] *)
Definition return_if_error (err : option error) (f : error -> option error) : Exec unit :=
  match err with
  | Some e => return_ (f e)
  | None => mret tt
  end.

(** *** Read *)

(** The statements of [Read] that follow the [defer] statement: steps 1, 2
    and 3.  Every path ends in a [return]. *)
Definition Read_steps (c : Composer) (r : ReadCloser) : Exec Empty_set :=
  (* Step 1 *)
  '(data, err) ← call_ReadAll r;
  return_if_error err (fun e => errors_Join [Some (Pkg ReadingFile); Some e]);;
  err ← call_Unmarshal data;
  return_if_error err (fun e => errors_Join [Some (Pkg UnmarshalingFile); Some e]);;
  (* Step 2 *)
  match updater c with
  | Some u =>
      err ← call_Update u;
      return_if_error err (fun e => errors_Join [Some (Pkg UpdateSettings); Some e])
  | None => mret tt
  end;;
  (* Step 3 *)
  match validator c with
  | None => return_ None
  | Some v =>
      errs ← call_Validate v;
      return_if_error errs (fun e => errors_Join [Some (Pkg ValidateSettings); Some e]);;
      return_ None
  end.

(** The deferred closure.  The [defer] statement stands in the bare block of
    step 1, but a deferred call runs when the surrounding function returns,
    not when the block ends: the closure runs after whichever [return]
    statement ended the call, steps 2 and 3 included, once that statement
    has given the named result [err] its value, and it assigns [err] again
    when [Close] fails. *)
Definition deferred_Close (r : ReadCloser) (err : option error) (w : World)
  : option error * World :=
  match call_Close r w with
  | (Next (Some closeErr), w') =>
      (errors_Join [Some (Pkg ClosingFile); Some closeErr], w')
  | (_, w') => (err, w')
  end.

(** The named result as the [return] statement leaves it. *)
Definition returned (f : Flow Empty_set) : option error :=
  match f with
  | Return err => err
  | Next a => match a with end
  end.

(** What a call of [Read] leaves behind: its result, the value behind
    [settings] ([None] when the argument was nil) and the calls made. *)
Record Outcome : Type := {
  ret : option error;
  settings_after : option Settings;
  calls : list event
}.

(** [as.Read(settings)].  [as_] is the receiver, [settings] the value the
    argument points to ([None] for a nil argument).  The result is [None]
    only for an address that is not in the heap, which no Go pointer is. *)
Definition Read (h : heap) (as_ : option loc) (settings : option Settings)
  : option Outcome :=
  (* Step 0 *)
  match as_ with
  | None =>
      Some {| ret := Some (Pkg AppSettingsNil); settings_after := settings; calls := [] |}
  | Some l =>
      match settings with
      | None =>
          Some {| ret := Some (Pkg SettingsParamNil); settings_after := None; calls := [] |}
      | Some s =>
          c ← h !! l;
          match jsonReader c with
          | None =>
              Some {| ret := Some (Pkg ReaderNil); settings_after := Some s; calls := [] |}
          | Some r =>
              let '(flow, w1) := Read_steps c r {| w_settings := s; w_calls := [] |} in
              let '(err, w2) := deferred_Close r (returned flow) w1 in
              Some {| ret := err;
                      settings_after := Some (w_settings w2);
                      calls := w_calls w2 |}
          end
      end
  end.

(** *** Vocabulary for the statements about Read *)

(** The world in which the steps of [Read] start. *)
Definition start (s : Settings) : World :=
  {| w_settings := s; w_calls := [] |}.

(** [Read] below the guards: the steps, then the deferred closure. *)
Definition finish (r : ReadCloser) (run : Flow Empty_set * World) : Outcome :=
  let '(err, w2) := deferred_Close r (returned (fst run)) (snd run) in
  {| ret := err; settings_after := Some (w_settings w2); calls := w_calls w2 |}.

(** The settings and the error the override stage (step 2) leaves, given
    the settings the decode stage left, and the calls it makes. *)
Definition override (c : Composer) (s : Settings) : Settings * option error :=
  match updater c with
  | Some u => Update u s
  | None => (s, None)
  end.

Definition override_calls (c : Composer) : list event :=
  match updater c with
  | Some _ => [CallUpdate]
  | None => []
  end.

End Appsettings.

Arguments EnvUpdater : clear implicits.
Arguments Validator : clear implicits.
Arguments Composer : clear implicits.
Arguments heap : clear implicits.
Arguments Constructed : clear implicits.
Arguments World : clear implicits.
Arguments Exec : clear implicits.
Arguments Outcome : clear implicits.
Arguments Next {A} a.
Arguments Return {A} err.

(** ** The fixtures of the package's test

    [TestSettings], [TestReader], [TestUpdater] and the [Validate] method
    of the test file, used to run the model on concrete inputs. *)

Module Fixtures.

Record LogT : Type := { Level : string }.
Record GlobalT : Type := { Log : LogT }.
Record CorsT : Type := { Origins : list string }.
Record ServiceT : Type := { Name : string }.
Record CustomT : Type := { Service : ServiceT; Enabled : bool }.
Record AppT : Type := { Credentials : string }.
Record GoogleT : Type := { App : AppT }.

Record TestSettings : Type := {
  Global : GlobalT;
  Cors : CorsT;
  Custom : CustomT;
  Google : GoogleT
}.

(** [&TestSettings{}] *)
Definition zero : TestSettings :=
  {| Global := {| Log := {| Level := EmptyString |} |};
     Cors := {| Origins := [] |};
     Custom := {| Service := {| Name := EmptyString |}; Enabled := false |};
     Google := {| App := {| Credentials := EmptyString |} |} |}.

Definition set_Level (v : string) (s : TestSettings) : TestSettings :=
  {| Global := {| Log := {| Level := v |} |};
     Cors := Cors s; Custom := Custom s; Google := Google s |}.

Definition set_Origins (v : list string) (s : TestSettings) : TestSettings :=
  {| Global := Global s; Cors := {| Origins := v |};
     Custom := Custom s; Google := Google s |}.

Definition set_Credentials (v : string) (s : TestSettings) : TestSettings :=
  {| Global := Global s; Cors := Cors s; Custom := Custom s;
     Google := {| App := {| Credentials := v |} |} |}.

Definition is_empty (s : string) : bool :=
  match s with EmptyString => true | _ => false end.

Definition Level_required : error := Foreign "Global.Log.Level is required".
Definition Credentials_required : error := Foreign "Google.App.Credentials is required".

(** [func (s *TestSettings) Validate(settings any) error]; in the test
    the receiver is the settings value itself. *)
Definition TestSettings_Validate (s : TestSettings) : TestSettings * option error :=
  let errs := None in
  let errs :=
    if is_empty (Level (Log (Global s)))
    then errors_Join [errs; Some Level_required] else errs in
  let errs :=
    if is_empty (Credentials (App (Google s)))
    then errors_Join [errs; Some Credentials_required] else errs in
  (s, errs).

Definition TestValidator : Validator TestSettings := {| Validate := TestSettings_Validate |}.

Record TestUpdater : Type := {
  LogLevel : string;
  GoogleCredentials : string;
  UpdateError : option error
}.

Definition TestUpdater_Update (u : TestUpdater) (s : TestSettings)
  : TestSettings * option error :=
  let s := if is_empty (LogLevel u) then s else set_Level (LogLevel u) s in
  let s := if is_empty (GoogleCredentials u) then s
           else set_Credentials (GoogleCredentials u) s in
  (s, UpdateError u).

Definition updater_of (u : TestUpdater) : EnvUpdater TestSettings :=
  {| Update := TestUpdater_Update u |}.

Record TestReader : Type := { HasReadError : bool; HasCloseError : bool }.

(** [TestReader.Read] returns no bytes, with ["read error"] or [io.EOF];
    [TestReader.Close] returns ["close error"] or nil. *)
Definition reader_of (t : TestReader) : ReadCloser :=
  {| reader_Read :=
       [ {| read_bytes := [];
            read_err := if HasReadError t then Some (Foreign "read error")
                        else Some io_EOF |} ];
     reader_Close := if HasCloseError t then Some (Foreign "close error") else None |}.

(** A source over a document held in memory: one [Read] hands the bytes
    over, the next one reports the end of the stream. *)
Definition document (text : string) (close : option error) : ReadCloser :=
  {| reader_Read :=
       [ {| read_bytes := list_byte_of_string text; read_err := None |};
         {| read_bytes := []; read_err := Some io_EOF |} ];
     reader_Close := close |}.

Definition q (s : string) : string :=
  String (ascii_of_nat 34) (s +:+ String (ascii_of_nat 34) EmptyString).

(** The well-formed document of the test. *)
Definition jsonContent : string :=
  "{" +:+ q "global" +:+ ":{" +:+ q "log" +:+ ":{" +:+ q "msg-level" +:+ ":"
      +:+ q "Debug" +:+ "}}," +:+ q "cors" +:+ ":{" +:+ q "origins" +:+ ":["
      +:+ q "*" +:+ "]}}".

(** [json.Unmarshal] into a [*TestSettings], tabulated on the documents
    used below: [jsonContent] sets the log level and the origins and the
    empty object changes nothing.  Of the other texts only the empty text
    and a lone opening brace are used: both end before their value is
    complete, which the decoder refuses with this syntax error before it
    touches the value. *)
Definition test_Unmarshal (data : list Byte.byte) (s : TestSettings)
  : TestSettings * option error :=
  let text := string_of_list_byte data in
  if String.eqb text jsonContent then (set_Origins ["*"] (set_Level "Debug" s), None)
  else if String.eqb text "{}" then (s, None)
  else (s, Some (Foreign "unexpected end of JSON input")).

(** No file in the working directory. *)
Definition no_files (name : string) : ReadCloser + error :=
  inr (Foreign ("open " +:+ name +:+ ": no such file or directory")).

Definition test_Read := Read test_Unmarshal.

(** [&Composer{...}] with the given fields. *)
Definition composer (r : option ReadCloser) (u : option (EnvUpdater TestSettings))
    (v : option (Validator TestSettings)) : Composer TestSettings :=
  {| jsonReader := r; updater := u; validator := v |}.

(** A heap holding one Composer, at address 1. *)
Definition at1 (c : Composer TestSettings) : heap TestSettings := {[ 1%positive := c ]}.

Definition close_error : error := Foreign "close error".

Definition failing_updater : EnvUpdater TestSettings :=
  updater_of {| LogLevel := EmptyString; GoogleCredentials := EmptyString;
                UpdateError := Some (Foreign "updater error") |}.

Definition credentials_updater : EnvUpdater TestSettings :=
  updater_of {| LogLevel := EmptyString; GoogleCredentials := "something";
                UpdateError := None |}.

(** No source bound. *)
Definition sourceless : Composer TestSettings := composer None None None.

(** The test's reader that reads nothing and fails to close. *)
Definition unclosable_empty : Composer TestSettings :=
  composer (Some (reader_of {| HasReadError := false; HasCloseError := true |})) None None.

(** The test's reader that fails to read; closing it succeeds or fails. *)
Definition unreadable (close_fails : bool) : Composer TestSettings :=
  composer (Some (reader_of {| HasReadError := true; HasCloseError := close_fails |}))
           None None.

(** A document that the decoder refuses; closing it succeeds. *)
Definition malformed : Composer TestSettings :=
  composer (Some (document "{" None)) None None.

(** The empty object, with the given close result and plugins. *)
Definition empty_object (close : option error) (u : option (EnvUpdater TestSettings))
    (v : option (Validator TestSettings)) : Composer TestSettings :=
  composer (Some (document "{}" close)) u v.

(** The test's document with the test's validator. *)
Definition validated : Composer TestSettings :=
  composer (Some (document jsonContent None)) None (Some TestValidator).

Definition p1 : option loc := Some 1%positive.

(** A working directory in which [appsettings.json] holds the empty object. *)
Definition one_file (name : string) : ReadCloser + error :=
  if String.eqb name "appsettings.json" then inl (document "{}" None)
  else no_files name.

End Fixtures.

(** ** Configuring a Composer and reading, as the callers do *)

#[local] Existing Instance Exec_ret.
#[local] Existing Instance Exec_bind.

Section Callers.

Context {Settings : Type}.
Variable json_Unmarshal : list Byte.byte -> Settings -> Settings * option error.
Variable os_Open : string -> ReadCloser + error.

(** The sequence of the test and of the README's [main]:
    [sut, err = NewComposerWithReader(r); sut = sut.WithUpdater(u);
     sut = sut.WithValidator(v); err = sut.Read(settings)],
    the constructor's error left unchecked as the test leaves it.  [None]
    is the panic of a setter called through a nil pointer. *)
Definition configure_and_Read (h : heap Settings) (r : option ReadCloser)
    (u : option (EnvUpdater Settings)) (v : option (Validator Settings))
    (settings : option Settings) : option (Outcome Settings) :=
  let k := NewComposerWithReader os_Open r h in
  '(sut, h1) ← WithUpdater (new_ptr k) u (new_heap k);
  '(sut, h2) ← WithValidator sut v h1;
  Read json_Unmarshal h2 sut settings.

(** The same with the two setters called in the other order. *)
Definition configure_and_Read' (h : heap Settings) (r : option ReadCloser)
    (u : option (EnvUpdater Settings)) (v : option (Validator Settings))
    (settings : option Settings) : option (Outcome Settings) :=
  let k := NewComposerWithReader os_Open r h in
  '(sut, h1) ← WithValidator (new_ptr k) v (new_heap k);
  '(sut, h2) ← WithUpdater sut u h1;
  Read json_Unmarshal h2 sut settings.

End Callers.

(** ** The earlier entry point: ReadSettingsFromFileAndEnv

    Three versions of the function precede the Composer.  Their step 1 is
    the same text: an [if file, err := os.Open(...); err != nil] whose
    else branch defers the close, reads and decodes. *)

(** [fmt.Errorf(msg)] with a constant text: a new error value, of no
    sentinel's identity, whose text is [msg]. *)
Definition fmt_Errorf (msg : string) : error := Foreign msg.

Section Step1.

Context {Settings : Type}.
Variable json_Unmarshal : list Byte.byte -> Settings -> Settings * option error.

(** The else branch after its [defer] statement. *)
Definition read_and_decode (file : ReadCloser) : Exec Settings unit :=
  '(data, err) ← call_ReadAll file;
  return_if_error err
    (fun e => errors_Join [Some (fmt_Errorf "failed to read appsettings file"); Some e]);;
  err ← call_Unmarshal json_Unmarshal data;
  return_if_error err
    (fun e => errors_Join [Some (fmt_Errorf "failed to unmarshal appsettings file"); Some e]).

(** The deferred closure of the three versions.  It closes the file and,
    when that fails, assigns the join to [err].  That [err] is the variable
    the [if] statement itself declares, together with [file]: it hides any
    result of the function, it is nil in the else branch, and nothing reads
    it once the closure has run.  Its last value is given back here beside
    the world; the functions below have no use for it. *)
Definition deferred_Close_of_if (file : ReadCloser) (w : World Settings)
  : option error * World Settings :=
  match call_Close file w with
  | (Next (Some closeErr), w') =>
      (errors_Join [Some (fmt_Errorf "failed to close appsettings file"); Some closeErr], w')
  | (_, w') => (None, w')
  end.

End Step1.

(** The version with [envconfig.Init] and no validation. *)
Module V1.
Section V1.

Context {Settings : Type}.
Variable json_Unmarshal : list Byte.byte -> Settings -> Settings * option error.
Variable os_Open : string -> ReadCloser + error.
(** [envconfig.Init(settings)] *)
Variable envconfig_Init : Settings -> Settings * option error.

(** The statements after the [defer], to the [return err] that ends the
    function. *)
Definition steps (file : ReadCloser) : Exec Settings Empty_set :=
  read_and_decode json_Unmarshal file;;
  (* Step 2 *)
  err ← call_Update {| Update := envconfig_Init |};
  let err :=
    match err with
    | Some e => errors_Join [Some (fmt_Errorf "failed to update settings with env vars"); Some e]
    | None => err
    end in
  return_ err.

Definition ReadSettingsFromFileAndEnv (settings : Settings) : Outcome Settings :=
  match os_Open "appsettings.json" with
  | inr err =>
      {| ret := errors_Join [Some (fmt_Errorf "failed to open appsettings file"); Some err];
         settings_after := Some settings;
         calls := [CallOpen "appsettings.json"] |}
  | inl file =>
      let '(flow, w1) :=
        steps file {| w_settings := settings; w_calls := [CallOpen "appsettings.json"] |} in
      let '(_, w2) := deferred_Close_of_if file w1 in
      {| ret := returned flow;
         settings_after := Some (w_settings w2);
         calls := w_calls w2 |}
  end.

End V1.
End V1.

(** The version with [envconfig.InitWithOptions] and the validator package. *)
Module V2.
Section V2.

Context {Settings : Type}.
Variable json_Unmarshal : list Byte.byte -> Settings -> Settings * option error.
Variable os_Open : string -> ReadCloser + error.
(** [envconfig.InitWithOptions(settings, envconfig.Options{AllOptional: true})] *)
Variable envconfig_InitWithOptions : Settings -> Settings * option error.
(** The validator package's [validator.Validate(settings)] *)
Variable validator_Validate : Settings -> Settings * option error.

Definition steps (file : ReadCloser) : Exec Settings Empty_set :=
  read_and_decode json_Unmarshal file;;
  (* Step 2 *)
  err ← call_Update {| Update := envconfig_InitWithOptions |};
  return_if_error err
    (fun e => errors_Join [Some (fmt_Errorf "failed to update settings with env vars"); Some e]);;
  (* Step 3 *)
  errs ← call_Validate {| Validate := validator_Validate |};
  return_if_error errs
    (fun e => errors_Join [Some (fmt_Errorf "failed to validate settings"); Some e]);;
  return_ None.

Definition ReadSettingsFromFileAndEnv (settings : Settings) : Outcome Settings :=
  match os_Open "appsettings.json" with
  | inr err =>
      {| ret := errors_Join [Some (fmt_Errorf "failed to open appsettings file"); Some err];
         settings_after := Some settings;
         calls := [CallOpen "appsettings.json"] |}
  | inl file =>
      let '(flow, w1) :=
        steps file {| w_settings := settings; w_calls := [CallOpen "appsettings.json"] |} in
      let '(_, w2) := deferred_Close_of_if file w1 in
      {| ret := returned flow;
         settings_after := Some (w_settings w2);
         calls := w_calls w2 |}
  end.

End V2.
End V2.

(** The version that takes the validator as an argument. *)
Module V3.
Section V3.

Context {Settings : Type}.
Variable json_Unmarshal : list Byte.byte -> Settings -> Settings * option error.
Variable os_Open : string -> ReadCloser + error.
(** [envconfig.InitWithOptions(settings, envconfig.Options{AllOptional: true})] *)
Variable envconfig_InitWithOptions : Settings -> Settings * option error.

Definition steps (file : ReadCloser) (validator : option (Validator Settings))
  : Exec Settings Empty_set :=
  read_and_decode json_Unmarshal file;;
  (* Step 2 *)
  err ← call_Update {| Update := envconfig_InitWithOptions |};
  return_if_error err
    (fun e => errors_Join [Some (fmt_Errorf "failed to update settings with env vars"); Some e]);;
  (* Step 3 *)
  match validator with
  | None => return_ None
  | Some v =>
      errs ← call_Validate v;
      return_if_error errs
        (fun e => errors_Join [Some (fmt_Errorf "failed to validate settings"); Some e]);;
      return_ None
  end.

Definition ReadSettingsFromFileAndEnv (settings : Settings)
    (validator : option (Validator Settings)) : Outcome Settings :=
  match os_Open "appsettings.json" with
  | inr err =>
      {| ret := errors_Join [Some (fmt_Errorf "failed to open appsettings file"); Some err];
         settings_after := Some settings;
         calls := [CallOpen "appsettings.json"] |}
  | inl file =>
      let '(flow, w1) :=
        steps file validator
              {| w_settings := settings; w_calls := [CallOpen "appsettings.json"] |} in
      let '(_, w2) := deferred_Close_of_if file w1 in
      {| ret := returned flow;
         settings_after := Some (w_settings w2);
         calls := w_calls w2 |}
  end.

End V3.
End V3.

(** The same file with another result of [Close]. *)
Definition with_Close (close : option error) (file : ReadCloser) : ReadCloser :=
  {| reader_Read := reader_Read file; reader_Close := close |}.

(** Working directories for the runs below: [appsettings.json] holds the
    test's document, or the empty object in a file that fails to close. *)
Definition test_file (name : string) : ReadCloser + error :=
  if String.eqb name "appsettings.json"
  then inl (Fixtures.document Fixtures.jsonContent None)
  else Fixtures.no_files name.

Definition unclosable_file (name : string) : ReadCloser + error :=
  if String.eqb name "appsettings.json"
  then inl (with_Close (Some Fixtures.close_error) (Fixtures.document "{}" None))
  else Fixtures.no_files name.

(** ** Properties of the package *)

Section Properties.

Context {Settings : Type}.
Variable json_Unmarshal : list Byte.byte -> Settings -> Settings * option error.

Implicit Types (h : heap Settings) (c : Composer Settings) (r : ReadCloser).
Implicit Types (s : Settings) (l : loc) (e : error) (w : World Settings).

(** Closes a goal saying that some call is not in an explicit log. *)
Ltac not_called := rewrite list_elem_of_In; simpl; intuition discriminate.

Lemma Read_unguarded h l c r s :
  h !! l = Some c ->
  jsonReader c = Some r ->
  Read json_Unmarshal h (Some l) (Some s)
  = Some (finish r (Read_steps json_Unmarshal c r (start s))).
Proof.
  intros Hl Hr. unfold Read, finish, start. rewrite Hl. simpl. rewrite Hr.
  destruct (Read_steps json_Unmarshal c r _) as [flow w1]. simpl.
  destruct (deferred_Close r (returned flow) w1) as [err w2]. reflexivity.
Qed.

(** The deferred closure always calls [Close], once, and touches nothing
    else; the result keeps its value exactly when [Close] succeeds. *)
Lemma deferred_Close_eq r (err : option error) w :
  deferred_Close r err w
  = (match reader_Close r with
     | Some closeErr => Some (joinError [Pkg ClosingFile; closeErr])
     | None => err
     end,
     {| w_settings := w_settings w; w_calls := w_calls w ++ [CallClose] |}).
Proof.
  unfold deferred_Close, call_Close, logged. destruct (reader_Close r); reflexivity.
Qed.

Lemma finish_eq r (err : option error) w :
  finish r (Return err, w)
  = {| ret := match reader_Close r with
              | Some closeErr => Some (joinError [Pkg ClosingFile; closeErr])
              | None => err
              end;
       settings_after := Some (w_settings w);
       calls := w_calls w ++ [CallClose] |}.
Proof. unfold finish. simpl. rewrite deferred_Close_eq. reflexivity. Qed.

(** The steps of [Read], stage by stage. *)

Lemma steps_read_fails c r s data e :
  io_ReadAll r = (data, Some e) ->
  Read_steps json_Unmarshal c r (start s)
  = (Return (Some (joinError [Pkg ReadingFile; e])),
     {| w_settings := s; w_calls := [CallReadAll] |}).
Proof.
  intros Hread. unfold Read_steps, start, mbind, Exec_bind, call_ReadAll, logged.
  simpl. rewrite Hread. reflexivity.
Qed.

Lemma steps_decode_fails c r s data s1 e :
  io_ReadAll r = (data, None) ->
  json_Unmarshal data s = (s1, Some e) ->
  Read_steps json_Unmarshal c r (start s)
  = (Return (Some (joinError [Pkg UnmarshalingFile; e])),
     {| w_settings := s1; w_calls := [CallReadAll; CallUnmarshal data] |}).
Proof.
  intros Hread Hdec.
  unfold Read_steps, start, mbind, Exec_bind, call_ReadAll, call_Unmarshal, logged.
  simpl. rewrite Hread. simpl. rewrite Hdec. reflexivity.
Qed.

Lemma steps_override_fails c r s data s1 s2 e :
  io_ReadAll r = (data, None) ->
  json_Unmarshal data s = (s1, None) ->
  override c s1 = (s2, Some e) ->
  Read_steps json_Unmarshal c r (start s)
  = (Return (Some (joinError [Pkg UpdateSettings; e])),
     {| w_settings := s2;
        w_calls := [CallReadAll; CallUnmarshal data; CallUpdate] |}).
Proof.
  intros Hread Hdec Hupd.
  unfold Read_steps, start, mbind, Exec_bind, call_ReadAll, call_Unmarshal, logged.
  simpl. rewrite Hread. simpl. rewrite Hdec. simpl.
  unfold override in Hupd. destruct (updater c) as [u|]; [|discriminate].
  unfold call_Update. simpl. rewrite Hupd. reflexivity.
Qed.

Lemma steps_validate c r s data s1 s2 :
  io_ReadAll r = (data, None) ->
  json_Unmarshal data s = (s1, None) ->
  override c s1 = (s2, None) ->
  Read_steps json_Unmarshal c r (start s)
  = match validator c with
    | None =>
        (Return None,
         {| w_settings := s2;
            w_calls := [CallReadAll; CallUnmarshal data] ++ override_calls c |})
    | Some v =>
        (Return (match snd (Validate v s2) with
                 | Some errs => Some (joinError [Pkg ValidateSettings; errs])
                 | None => None
                 end),
         {| w_settings := fst (Validate v s2);
            w_calls := ([CallReadAll; CallUnmarshal data] ++ override_calls c)
                       ++ [CallValidate] |})
    end.
Proof.
  intros Hread Hdec Hupd.
  unfold Read_steps, start, mbind, Exec_bind, call_ReadAll, call_Unmarshal, logged.
  simpl. rewrite Hread. simpl. rewrite Hdec. simpl.
  unfold override in Hupd. unfold override_calls.
  destruct (updater c) as [u|].
  - unfold call_Update. simpl. rewrite Hupd. simpl.
    destruct (validator c) as [v|]; [|reflexivity].
    unfold call_Validate. simpl.
    destruct (Validate v s2) as [s3 [errs|]]; reflexivity.
  - injection Hupd as ->. simpl.
    destruct (validator c) as [v|]; [|reflexivity].
    unfold call_Validate. simpl.
    destruct (Validate v s2) as [s3 [errs|]]; reflexivity.
Qed.

(** Facts about a join of a sentinel with one cause. *)

Lemma errors_Is_join2 (k0 k : Sentinel) e :
  errors_Is (joinError [Pkg k0; e]) k = bool_decide (k0 = k) || errors_Is e k.
Proof. simpl. rewrite orb_false_r. reflexivity. Qed.

Lemma causes_join2 (k0 : Sentinel) e :
  causes (joinError [Pkg k0; e]) = Pkg k0 :: causes e.
Proof. simpl. rewrite app_nil_r. reflexivity. Qed.

Lemma Error_join2 (k0 : Sentinel) e :
  Error (joinError [Pkg k0; e])
  = sentinel_text k0 +:+ String "010"%char EmptyString +:+ Error e.
Proof. reflexivity. Qed.

(** C1.  The three guards of [Read] are tested in the order receiver,
    settings argument, source: a nil receiver gives [ErrAppSettingsNil]
    whatever the settings argument is; a nil settings argument gives
    [ErrSettingsParamNil] whatever the Composer holds; a Composer without
    a source gives [ErrReaderNil].  The three errors are distinct values
    with distinct texts, and in each case no call is made on any
    collaborator (the source is neither read nor closed, no plugin runs)
    and the settings value is left as it was. *)
Theorem Read_guards h :
  (forall settings,
      Read json_Unmarshal h None settings
      = Some {| ret := Some (Pkg AppSettingsNil);
                settings_after := settings; calls := [] |})
  /\ (forall l,
      Read json_Unmarshal h (Some l) None
      = Some {| ret := Some (Pkg SettingsParamNil);
                settings_after := None; calls := [] |})
  /\ (forall l c s,
      h !! l = Some c ->
      jsonReader c = None ->
      Read json_Unmarshal h (Some l) (Some s)
      = Some {| ret := Some (Pkg ReaderNil);
                settings_after := Some s; calls := [] |})
  /\ NoDup [Pkg AppSettingsNil; Pkg SettingsParamNil; Pkg ReaderNil]
  /\ NoDup (map Error [Pkg AppSettingsNil; Pkg SettingsParamNil; Pkg ReaderNil]).
Proof.
  repeat split.
  - intros l c s Hl Hr. unfold Read. rewrite Hl. simpl. rewrite Hr. reflexivity.
  - repeat constructor; rewrite ?list_elem_of_In; simpl; intuition discriminate.
  - repeat constructor; rewrite ?list_elem_of_In; simpl; intuition discriminate.
Qed.

(** C3.  When reading and decoding succeed and the close of the source
    fails, [Read] returns the close failure joined under [ErrClosingFile]:
    the result is a close-kind error whose wrapped cause is the close
    failure, and [Close] is the last call made.  This holds also when the
    [return] statement had chosen success (no plugin attached, so that
    the named result was nil before the deferred closure ran). *)
Theorem Read_close_failure_is_the_result h l c r s data s1 closeErr :
  h !! l = Some c ->
  jsonReader c = Some r ->
  io_ReadAll r = (data, None) ->
  json_Unmarshal data s = (s1, None) ->
  reader_Close r = Some closeErr ->
  exists o,
    Read json_Unmarshal h (Some l) (Some s) = Some o
    /\ ret o = Some (joinError [Pkg ClosingFile; closeErr])
    /\ errors_Is (joinError [Pkg ClosingFile; closeErr]) ClosingFile = true
    /\ Unwrap (joinError [Pkg ClosingFile; closeErr]) = [Pkg ClosingFile; closeErr]
    /\ last (calls o) = Some CallClose
    /\ (updater c = None -> validator c = None ->
        returned (fst (Read_steps json_Unmarshal c r (start s))) = None).
Proof.
  intros Hl Hr Hread Hdec Hclose.
  eexists. split; [apply (Read_unguarded h l c r s Hl Hr)|].
  split; [|split; [reflexivity|split; [reflexivity|split]]].
  - destruct (Read_steps json_Unmarshal c r (start s)) as [[[]|err] w1].
    rewrite finish_eq, Hclose. reflexivity.
  - destruct (Read_steps json_Unmarshal c r (start s)) as [[[]|err] w1].
    rewrite finish_eq. simpl. apply last_snoc.
  - intros Hu Hv.
    rewrite (steps_validate c r s data s1 s1 Hread Hdec), Hv; [reflexivity|].
    unfold override. rewrite Hu. reflexivity.
Qed.

(** C10.  When the read stage or the decode stage fails and the close of
    the source fails too, the result of [Read] is the close failure joined
    under [ErrClosingFile] and nothing else.  The [return] statement had
    given the named result the read-kind (or unmarshal-kind) error; the
    deferred closure assigns the result again, so the value returned does
    not depend on the earlier cause: its wrapped errors are the sentinel
    and the close failure, and it is of a given kind only if that kind is
    [ErrClosingFile] or the close failure itself carries it. *)
Theorem Read_close_failure_discards_earlier_cause h l c r s data s1 e closeErr :
  h !! l = Some c ->
  jsonReader c = Some r ->
  io_ReadAll r = (data, Some e)
  \/ (io_ReadAll r = (data, None) /\ json_Unmarshal data s = (s1, Some e)) ->
  reader_Close r = Some closeErr ->
  exists o stage,
    Read json_Unmarshal h (Some l) (Some s) = Some o
    /\ (stage = ReadingFile \/ stage = UnmarshalingFile)
    /\ returned (fst (Read_steps json_Unmarshal c r (start s)))
       = Some (joinError [Pkg stage; e])
    /\ ret o = Some (joinError [Pkg ClosingFile; closeErr])
    /\ Unwrap (joinError [Pkg ClosingFile; closeErr]) = [Pkg ClosingFile; closeErr]
    /\ causes (joinError [Pkg ClosingFile; closeErr]) = Pkg ClosingFile :: causes closeErr
    /\ (forall k, errors_Is (joinError [Pkg ClosingFile; closeErr]) k
                 = bool_decide (ClosingFile = k) || errors_Is closeErr k).
Proof.
  intros Hl Hr Hfail Hclose.
  exists (finish r (Read_steps json_Unmarshal c r (start s))).
  exists (match snd (io_ReadAll r) with Some _ => ReadingFile | None => UnmarshalingFile end).
  split; [apply (Read_unguarded h l c r s Hl Hr)|].
  destruct Hfail as [Hread|[Hread Hdec]].
  - rewrite (steps_read_fails c r s data e Hread), finish_eq, Hclose, Hread. simpl.
    split; [left; reflexivity|].
    repeat split; [apply (causes_join2 ClosingFile)|intros k; apply errors_Is_join2].
  - rewrite (steps_decode_fails c r s data s1 e Hread Hdec), finish_eq, Hclose, Hread.
    simpl. split; [right; reflexivity|].
    repeat split; [apply (causes_join2 ClosingFile)|intros k; apply errors_Is_join2].
Qed.

(** C2 (amended).  When the source is read to its end and the decoder
    refuses the bytes, [Read] calls neither the updater nor the validator:
    the calls made are the read, the decode and the close.  The settings
    value is left as the decoder left it.  When the close of the source
    succeeds, the result is the decoder's error joined under
    [ErrUnmarshalingFile]: an unmarshal-kind error whose wrapped cause is
    the decoder's, and of no other kind than that cause carries.  When the
    close fails, the result is the close failure joined under
    [ErrClosingFile]. *)
Theorem Read_malformed_document h l c r s data s1 e :
  h !! l = Some c ->
  jsonReader c = Some r ->
  io_ReadAll r = (data, None) ->
  json_Unmarshal data s = (s1, Some e) ->
  exists o,
    Read json_Unmarshal h (Some l) (Some s) = Some o
    /\ calls o = [CallReadAll; CallUnmarshal data; CallClose]
    /\ (CallUpdate ∉ calls o) /\ (CallValidate ∉ calls o)
    /\ settings_after o = Some s1
    /\ (reader_Close r = None ->
        ret o = Some (joinError [Pkg UnmarshalingFile; e])
        /\ Unwrap (joinError [Pkg UnmarshalingFile; e]) = [Pkg UnmarshalingFile; e]
        /\ forall k, errors_Is (joinError [Pkg UnmarshalingFile; e]) k
                     = bool_decide (UnmarshalingFile = k) || errors_Is e k)
    /\ (forall closeErr,
          reader_Close r = Some closeErr ->
          ret o = Some (joinError [Pkg ClosingFile; closeErr])).
Proof.
  intros Hl Hr Hread Hdec.
  eexists. split; [apply (Read_unguarded h l c r s Hl Hr)|].
  rewrite (steps_decode_fails c r s data s1 e Hread Hdec), finish_eq.
  cbn [calls settings_after ret w_calls w_settings app].
  split; [reflexivity|]. split; [not_called|]. split; [not_called|].
  split; [reflexivity|]. split.
  - intros ->.
    split; [reflexivity|]. split; [reflexivity|]. intros k. apply errors_Is_join2.
  - intros closeErr ->. reflexivity.
Qed.

(** C7 (amended).  When reading the source fails, the decoder is never
    called and the source is still closed: the calls made are the read and
    the close, and the settings value is untouched.  When that close
    succeeds, the result is the read failure joined under
    [ErrReadingFile]: a read-kind error whose wrapped cause is the read
    failure.  When the close fails, the result is the close failure joined
    under [ErrClosingFile]. *)
Theorem Read_read_failure h l c r s data e :
  h !! l = Some c ->
  jsonReader c = Some r ->
  io_ReadAll r = (data, Some e) ->
  exists o,
    Read json_Unmarshal h (Some l) (Some s) = Some o
    /\ calls o = [CallReadAll; CallClose]
    /\ settings_after o = Some s
    /\ (reader_Close r = None ->
        ret o = Some (joinError [Pkg ReadingFile; e])
        /\ errors_Is (joinError [Pkg ReadingFile; e]) ReadingFile = true
        /\ Unwrap (joinError [Pkg ReadingFile; e]) = [Pkg ReadingFile; e])
    /\ (forall closeErr,
          reader_Close r = Some closeErr ->
          ret o = Some (joinError [Pkg ClosingFile; closeErr])).
Proof.
  intros Hl Hr Hread.
  eexists. split; [apply (Read_unguarded h l c r s Hl Hr)|].
  rewrite (steps_read_fails c r s data e Hread), finish_eq.
  cbn [calls settings_after ret w_calls w_settings app].
  split; [reflexivity|]. split; [reflexivity|]. split.
  - intros ->. repeat split.
  - intros closeErr ->. reflexivity.
Qed.

(** C5 (amended).  With neither an updater nor a validator attached, a
    source that is read to its end, decodes and closes without error makes
    [Read] return nil: the only calls are the read, the decode and the
    close, and the settings value is the decoded one, whatever fields the
    document left unset. *)
Theorem Read_without_plugins h l c r s data s1 :
  h !! l = Some c ->
  jsonReader c = Some r ->
  updater c = None ->
  validator c = None ->
  io_ReadAll r = (data, None) ->
  json_Unmarshal data s = (s1, None) ->
  reader_Close r = None ->
  Read json_Unmarshal h (Some l) (Some s)
  = Some {| ret := None;
            settings_after := Some s1;
            calls := [CallReadAll; CallUnmarshal data; CallClose] |}.
Proof.
  intros Hl Hr Hu Hv Hread Hdec Hclose.
  rewrite (Read_unguarded h l c r s Hl Hr).
  rewrite (steps_validate c r s data s1 s1 Hread Hdec).
  - rewrite Hv, finish_eq, Hclose. unfold override_calls. rewrite Hu. reflexivity.
  - unfold override. rewrite Hu. reflexivity.
Qed.

(** C6 (amended).  When the attached updater reports an error, the
    validator is never called, attached or not: the calls made are the
    read, the decode, the update and the close.  When the close of the
    source succeeds, the result is the updater's error joined under
    [ErrUpdateSettings]: an update-kind error whose wrapped cause is the
    updater's. *)
Theorem Read_update_failure h l c r u s data s1 s2 e :
  h !! l = Some c ->
  jsonReader c = Some r ->
  updater c = Some u ->
  io_ReadAll r = (data, None) ->
  json_Unmarshal data s = (s1, None) ->
  Update u s1 = (s2, Some e) ->
  exists o,
    Read json_Unmarshal h (Some l) (Some s) = Some o
    /\ calls o = [CallReadAll; CallUnmarshal data; CallUpdate; CallClose]
    /\ (CallValidate ∉ calls o)
    /\ settings_after o = Some s2
    /\ (reader_Close r = None ->
        ret o = Some (joinError [Pkg UpdateSettings; e])
        /\ errors_Is (joinError [Pkg UpdateSettings; e]) UpdateSettings = true
        /\ Unwrap (joinError [Pkg UpdateSettings; e]) = [Pkg UpdateSettings; e]).
Proof.
  intros Hl Hr Hu Hread Hdec Hupd.
  eexists. split; [apply (Read_unguarded h l c r s Hl Hr)|].
  rewrite (steps_override_fails c r s data s1 s2 e Hread Hdec), finish_eq.
  - cbn [calls settings_after ret w_calls w_settings app].
    split; [reflexivity|]. split; [not_called|]. split; [reflexivity|]. intros ->.
    repeat split.
  - unfold override. rewrite Hu. exact Hupd.
Qed.

(** The validate stage, when everything before it and the close succeed:
    the validator's error is joined under [ErrValidateSettings]. *)
Lemma Read_validator_reports h l c r v s data s1 s2 s3 errs :
  h !! l = Some c ->
  jsonReader c = Some r ->
  validator c = Some v ->
  io_ReadAll r = (data, None) ->
  json_Unmarshal data s = (s1, None) ->
  override c s1 = (s2, None) ->
  Validate v s2 = (s3, Some errs) ->
  reader_Close r = None ->
  Read json_Unmarshal h (Some l) (Some s)
  = Some {| ret := Some (joinError [Pkg ValidateSettings; errs]);
            settings_after := Some s3;
            calls := ([CallReadAll; CallUnmarshal data] ++ override_calls c)
                     ++ [CallValidate; CallClose] |}.
Proof.
  intros Hl Hr Hv Hread Hdec Hupd Hval Hclose.
  rewrite (Read_unguarded h l c r s Hl Hr).
  rewrite (steps_validate c r s data s1 s2 Hread Hdec Hupd), Hv, Hval.
  rewrite finish_eq, Hclose. cbn [fst snd w_calls w_settings].
  rewrite <- app_assoc. reflexivity.
Qed.

(** X1.  Whenever the guards let the call through, the source is closed
    exactly once, and that is the last call [Read] makes: the calls of the
    read, decode, override and validate stages all come before it. *)
Theorem Read_closes_the_source_last h l c r s :
  h !! l = Some c ->
  jsonReader c = Some r ->
  exists o before,
    Read json_Unmarshal h (Some l) (Some s) = Some o
    /\ calls o = before ++ [CallClose]
    /\ before = w_calls (snd (Read_steps json_Unmarshal c r (start s)))
    /\ (CallClose ∉ before)
    /\ head before = Some CallReadAll.
Proof.
  intros Hl Hr.
  exists (finish r (Read_steps json_Unmarshal c r (start s))).
  exists (w_calls (snd (Read_steps json_Unmarshal c r (start s)))).
  split; [apply (Read_unguarded h l c r s Hl Hr)|].
  split.
  { destruct (Read_steps json_Unmarshal c r (start s)) as [[[]|err] w1].
    rewrite finish_eq. reflexivity. }
  split; [reflexivity|].
  destruct (io_ReadAll r) as [data [e|]] eqn:Hread.
  { rewrite (steps_read_fails c r s data e Hread). split; [not_called|reflexivity]. }
  destruct (json_Unmarshal data s) as [s1 [e|]] eqn:Hdec.
  { rewrite (steps_decode_fails c r s data s1 e Hread Hdec).
    split; [not_called|reflexivity]. }
  destruct (override c s1) as [s2 [e|]] eqn:Hupd.
  { rewrite (steps_override_fails c r s data s1 s2 e Hread Hdec Hupd).
    split; [not_called|reflexivity]. }
  rewrite (steps_validate c r s data s1 s2 Hread Hdec Hupd).
  unfold override_calls.
  destruct (validator c), (updater c); split; solve [not_called | reflexivity].
Qed.

(** X2.  When every stage that applies succeeds and the source closes
    without error, [Read] returns nil and the settings value is the decoded
    one, then changed by the updater if one is attached, then as the
    validator left it if one is attached. *)
Theorem Read_success h l c r s data s1 s2 s3 :
  h !! l = Some c ->
  jsonReader c = Some r ->
  io_ReadAll r = (data, None) ->
  json_Unmarshal data s = (s1, None) ->
  override c s1 = (s2, None) ->
  match validator c with
  | Some v => Validate v s2 = (s3, None)
  | None => s3 = s2
  end ->
  reader_Close r = None ->
  exists o,
    Read json_Unmarshal h (Some l) (Some s) = Some o
    /\ ret o = None
    /\ settings_after o = Some s3.
Proof.
  intros Hl Hr Hread Hdec Hupd Hval Hclose.
  eexists. split; [apply (Read_unguarded h l c r s Hl Hr)|].
  rewrite (steps_validate c r s data s1 s2 Hread Hdec Hupd).
  destruct (validator c) as [v|].
  - rewrite Hval, finish_eq, Hclose. split; reflexivity.
  - rewrite finish_eq, Hclose, Hval. split; reflexivity.
Qed.

End Properties.

Section Construction.

Context {Settings : Type}.
Variable os_Open : string -> ReadCloser + error.

Implicit Types (h : heap Settings) (c : Composer Settings) (l : loc).

Lemma alloc_fresh c h : h !! (alloc c h).1 = None.
Proof. unfold alloc, heap in *. simpl. apply not_elem_of_dom_1, is_fresh. Qed.

(** C8.  Constructing with a nil reader opens the file named
    [appsettings.json], and nothing else, through [os.Open] (which resolves
    the name in the working directory).  When the open fails, no Composer
    is produced (the pointer result is nil and the heap is unchanged) and
    the error result is the operating system's cause joined under
    [ErrOpeningFile]: an open-kind error whose wrapped cause is the one
    [os.Open] gave, so that two different causes give two different
    results.  When it succeeds, the result is a pointer to a new Composer
    that holds the opened file and neither plugin, with a nil error. *)
Theorem NewComposerWithReader_default_source h :
  new_calls (NewComposerWithReader os_Open None h) = [CallOpen "appsettings.json"]
  /\ (forall cause,
        os_Open "appsettings.json" = inr cause ->
        NewComposerWithReader os_Open None h
        = {| new_ptr := None;
             new_err := Some (joinError [Pkg OpeningFile; cause]);
             new_heap := h;
             new_calls := [CallOpen "appsettings.json"] |}
        /\ errors_Is (joinError [Pkg OpeningFile; cause]) OpeningFile = true
        /\ Unwrap (joinError [Pkg OpeningFile; cause]) = [Pkg OpeningFile; cause]
        /\ causes (joinError [Pkg OpeningFile; cause]) = Pkg OpeningFile :: causes cause)
  /\ (forall f,
        os_Open "appsettings.json" = inl f ->
        exists l,
          h !! l = None
          /\ NewComposerWithReader os_Open None h
             = {| new_ptr := Some l;
                  new_err := None;
                  new_heap := <[l := {| jsonReader := Some f; updater := None;
                                        validator := None |}]> h;
                  new_calls := [CallOpen "appsettings.json"] |}).
Proof.
  unfold NewComposerWithReader, DefaultAppSettingsFile.
  split; [|split].
  - destruct (os_Open "appsettings.json"); reflexivity.
  - intros cause ->. split; [reflexivity|].
    split; [reflexivity|]. split; [reflexivity|]. simpl. rewrite app_nil_r. reflexivity.
  - intros f ->. eexists. split; [|reflexivity].
    apply (alloc_fresh {| jsonReader := Some f; updater := None; validator := None |}).
Qed.

(** C9.  On a Composer at address [l], each setter succeeds for every
    argument, nil included, and returns the pointer [l] it was called on.
    Afterwards the struct at [l] has the argument in the setter's own slot,
    whatever was there before, and its source and its other slot as they
    were; every other address of the heap is untouched; and a second call
    of the same setter gives what that call alone would have given. *)
Theorem setters_change_their_own_slot h l c :
  h !! l = Some c ->
  (forall u, exists h',
      WithUpdater (Some l) u h = Some (Some l, h')
      /\ h' !! l = Some {| jsonReader := jsonReader c; updater := u;
                           validator := validator c |}
      /\ (forall l', l' <> l -> h' !! l' = h !! l')
      /\ (forall u2, WithUpdater (Some l) u2 h' = WithUpdater (Some l) u2 h))
  /\ (forall v, exists h',
      WithValidator (Some l) v h = Some (Some l, h')
      /\ h' !! l = Some {| jsonReader := jsonReader c; updater := updater c;
                           validator := v |}
      /\ (forall l', l' <> l -> h' !! l' = h !! l')
      /\ (forall v2, WithValidator (Some l) v2 h' = WithValidator (Some l) v2 h)).
Proof.
  unfold heap in *. intros Hl. split.
  - intros u. eexists. split.
    + unfold WithUpdater, heap. simpl. rewrite Hl. reflexivity.
    + split; [apply lookup_insert_eq|].
      split; [intros l' Hne; apply lookup_insert_ne; congruence|].
      intros u2. unfold WithUpdater, heap. simpl.
      rewrite lookup_insert_eq, Hl. simpl. rewrite insert_insert_eq. reflexivity.
  - intros v. eexists. split.
    + unfold WithValidator, heap. simpl. rewrite Hl. reflexivity.
    + split; [apply lookup_insert_eq|].
      split; [intros l' Hne; apply lookup_insert_ne; congruence|].
      intros v2. unfold WithValidator, heap. simpl.
      rewrite lookup_insert_eq, Hl. simpl. rewrite insert_insert_eq. reflexivity.
Qed.

End Construction.

(** ** The validate stage on the test's validator *)

Import Fixtures.

Lemma TestSettings_Validate_only_Credentials (s : TestSettings) :
  is_empty (Level (Log (Global s))) = false ->
  is_empty (Credentials (App (Google s))) = true ->
  TestSettings_Validate s = (s, Some (joinError [Credentials_required])).
Proof.
  intros HB HA. unfold TestSettings_Validate. rewrite HB, HA. reflexivity.
Qed.

(** C4 (amended).  When the attached validator reports an error [errs] and
    the close of the source then succeeds, [Read] returns [errs] joined
    under [ErrValidateSettings]: a validate-kind error whose wrapped errors
    are the sentinel and [errs] itself, whose causes are the sentinel
    followed by every cause of [errs], in order and with repetitions, and
    whose text is the sentinel's text, a newline, and the text of [errs].
    In particular, with the validator of the test (which requires the log
    level and the credentials), settings in which the credentials are
    missing and the log level is present give an error whose text contains
    the violation for the credentials and not the one for the log level. *)
Theorem Read_validation_errors_preserved :
  (forall (Settings : Type)
          (json_Unmarshal : list Byte.byte -> Settings -> Settings * option error)
          (h : heap Settings) l c r v s data s1 s2 s3 errs,
      h !! l = Some c ->
      jsonReader c = Some r ->
      validator c = Some v ->
      io_ReadAll r = (data, None) ->
      json_Unmarshal data s = (s1, None) ->
      override c s1 = (s2, None) ->
      Validate v s2 = (s3, Some errs) ->
      reader_Close r = None ->
      exists o,
        Read json_Unmarshal h (Some l) (Some s) = Some o
        /\ ret o = Some (joinError [Pkg ValidateSettings; errs])
        /\ errors_Is (joinError [Pkg ValidateSettings; errs]) ValidateSettings = true
        /\ Unwrap (joinError [Pkg ValidateSettings; errs]) = [Pkg ValidateSettings; errs]
        /\ causes (joinError [Pkg ValidateSettings; errs])
           = Pkg ValidateSettings :: causes errs
        /\ Error (joinError [Pkg ValidateSettings; errs])
           = "failed to validate settings" +:+ String "010"%char EmptyString
             +:+ Error errs)
  /\ (forall (json_Unmarshal : list Byte.byte -> TestSettings -> TestSettings * option error)
             (h : heap TestSettings) l c r s data s1 s2,
      h !! l = Some c ->
      jsonReader c = Some r ->
      validator c = Some TestValidator ->
      io_ReadAll r = (data, None) ->
      json_Unmarshal data s = (s1, None) ->
      override c s1 = (s2, None) ->
      is_empty (Credentials (App (Google s2))) = true ->
      is_empty (Level (Log (Global s2))) = false ->
      reader_Close r = None ->
      exists o err,
        Read json_Unmarshal h (Some l) (Some s) = Some o
        /\ ret o = Some err
        /\ errors_Is err ValidateSettings = true
        /\ Contains (Error err) "Google.App.Credentials is required" = true
        /\ Contains (Error err) "Global.Log.Level is required" = false
        /\ (Credentials_required ∈ causes err)
        /\ (Level_required ∉ causes err)).
Proof.
  split.
  - intros Settings json_Unmarshal h l c r v s data s1 s2 s3 errs
           Hl Hr Hv Hread Hdec Hupd Hval Hclose.
    eexists. split.
    { apply (Read_validator_reports json_Unmarshal h l c r v s data s1 s2 s3 errs);
        assumption. }
    cbn [ret]. split; [reflexivity|]. split; [reflexivity|]. split; [reflexivity|].
    split; [apply causes_join2|]. reflexivity.
  - intros json_Unmarshal h l c r s data s1 s2 Hl Hr Hv Hread Hdec Hupd HA HB Hclose.
    pose proof (TestSettings_Validate_only_Credentials s2 HB HA) as Hval.
    eexists. eexists. split.
    { apply (Read_validator_reports json_Unmarshal h l c r TestValidator s data s1 s2 s2
               (joinError [Credentials_required])); assumption. }
    cbn [ret]. split; [reflexivity|]. split; [reflexivity|].
    split; [vm_compute; reflexivity|]. split; [vm_compute; reflexivity|].
    split; rewrite list_elem_of_In; simpl; [tauto|].
    unfold Level_required, Credentials_required. intuition discriminate.
Qed.

(** ** The statements above on the fixtures of the test *)

Lemma Read_guards_witness :
  at1 sourceless !! 1%positive = Some sourceless
  /\ jsonReader sourceless = None
  /\ test_Read (at1 sourceless) p1 (Some zero)
     = Some {| ret := Some (Pkg ReaderNil); settings_after := Some zero; calls := [] |}.
Proof.
  split; [reflexivity|]. split; [reflexivity|].
  apply (proj1 (proj2 (proj2 (Read_guards test_Unmarshal (at1 sourceless))))
           1%positive sourceless zero); reflexivity.
Defined.

Lemma Read_close_failure_is_the_result_witness :
  exists o,
    test_Read (at1 (empty_object (Some close_error) None None)) p1 (Some zero) = Some o
    /\ ret o = Some (joinError [Pkg ClosingFile; close_error])
    /\ last (calls o) = Some CallClose.
Proof.
  destruct (Read_close_failure_is_the_result test_Unmarshal
              (at1 (empty_object (Some close_error) None None)) 1%positive
              (empty_object (Some close_error) None None)
              (document "{}" (Some close_error)) zero
              (list_byte_of_string "{}") zero close_error)
    as (o & Ho & Hret & _ & _ & Hlast & _); try reflexivity.
  exists o. split; [exact Ho|]. split; [exact Hret|exact Hlast].
Defined.

Lemma Read_close_failure_discards_earlier_cause_witness :
  exists o,
    test_Read (at1 (unreadable true)) p1 (Some zero) = Some o
    /\ ret o = Some (joinError [Pkg ClosingFile; close_error]).
Proof.
  destruct (Read_close_failure_discards_earlier_cause test_Unmarshal
              (at1 (unreadable true)) 1%positive (unreadable true)
              (reader_of {| HasReadError := true; HasCloseError := true |}) zero
              [] zero (Foreign "read error") close_error)
    as (o & stage & Ho & _ & _ & Hret & _); try reflexivity.
  - left. reflexivity.
  - exists o. split; [exact Ho|exact Hret].
Defined.

Lemma Read_malformed_document_witness :
  exists o,
    test_Read (at1 malformed) p1 (Some zero) = Some o
    /\ calls o = [CallReadAll; CallUnmarshal (list_byte_of_string "{"); CallClose]
    /\ ret o = Some (joinError [Pkg UnmarshalingFile;
                                Foreign "unexpected end of JSON input"]).
Proof.
  destruct (Read_malformed_document test_Unmarshal (at1 malformed) 1%positive malformed
              (document "{" None) zero (list_byte_of_string "{") zero
              (Foreign "unexpected end of JSON input"))
    as (o & Ho & Hcalls & _ & _ & _ & Hret & _); try reflexivity.
  exists o. split; [exact Ho|]. split; [exact Hcalls|].
  apply Hret. reflexivity.
Defined.

Lemma Read_read_failure_witness :
  exists o,
    test_Read (at1 (unreadable false)) p1 (Some zero) = Some o
    /\ calls o = [CallReadAll; CallClose]
    /\ ret o = Some (joinError [Pkg ReadingFile; Foreign "read error"]).
Proof.
  destruct (Read_read_failure test_Unmarshal (at1 (unreadable false)) 1%positive
              (unreadable false)
              (reader_of {| HasReadError := true; HasCloseError := false |}) zero
              [] (Foreign "read error"))
    as (o & Ho & Hcalls & _ & Hret & _); try reflexivity.
  exists o. split; [exact Ho|]. split; [exact Hcalls|].
  apply Hret. reflexivity.
Defined.

Lemma Read_without_plugins_witness :
  test_Read (at1 (empty_object None None None)) p1 (Some zero)
  = Some {| ret := None;
            settings_after := Some zero;
            calls := [CallReadAll; CallUnmarshal (list_byte_of_string "{}"); CallClose] |}.
Proof.
  apply (Read_without_plugins test_Unmarshal (at1 (empty_object None None None))
           1%positive (empty_object None None None) (document "{}" None) zero
           (list_byte_of_string "{}") zero); reflexivity.
Defined.

Lemma Read_update_failure_witness :
  exists o,
    test_Read (at1 (empty_object None (Some failing_updater) (Some TestValidator)))
              p1 (Some zero) = Some o
    /\ (CallValidate ∉ calls o)
    /\ ret o = Some (joinError [Pkg UpdateSettings; Foreign "updater error"]).
Proof.
  destruct (Read_update_failure test_Unmarshal
              (at1 (empty_object None (Some failing_updater) (Some TestValidator)))
              1%positive
              (empty_object None (Some failing_updater) (Some TestValidator))
              (document "{}" None) failing_updater zero
              (list_byte_of_string "{}") zero zero (Foreign "updater error"))
    as (o & Ho & _ & Hnot & _ & Hret); try reflexivity.
  exists o. split; [exact Ho|]. split; [exact Hnot|].
  apply Hret. reflexivity.
Defined.

Lemma Read_validation_errors_preserved_witness :
  exists o err,
    test_Read (at1 validated) p1 (Some zero) = Some o
    /\ ret o = Some err
    /\ Contains (Error err) "Google.App.Credentials is required" = true
    /\ Contains (Error err) "Global.Log.Level is required" = false.
Proof.
  destruct (proj2 Read_validation_errors_preserved test_Unmarshal (at1 validated)
              1%positive validated (document jsonContent None) zero
              (list_byte_of_string jsonContent)
              (set_Origins ["*"] (set_Level "Debug" zero))
              (set_Origins ["*"] (set_Level "Debug" zero)))
    as (o & err & Ho & Hret & _ & HA & HB & _); try reflexivity.
  exists o, err. split; [exact Ho|]. split; [exact Hret|]. split; [exact HA|exact HB].
Defined.

Lemma NewComposerWithReader_default_source_witness :
  new_ptr (NewComposerWithReader (Settings := TestSettings) no_files None ∅) = None
  /\ new_err (NewComposerWithReader (Settings := TestSettings) no_files None ∅)
     = Some (joinError [Pkg OpeningFile;
                        Foreign "open appsettings.json: no such file or directory"])
  /\ exists l,
       new_ptr (NewComposerWithReader (Settings := TestSettings) one_file None ∅) = Some l.
Proof.
  destruct (proj1 (proj2 (NewComposerWithReader_default_source
                            (Settings := TestSettings) no_files ∅))
              (Foreign "open appsettings.json: no such file or directory"))
    as (Heq & _); [reflexivity|].
  rewrite Heq. split; [reflexivity|]. split; [reflexivity|].
  destruct (proj2 (proj2 (NewComposerWithReader_default_source
                            (Settings := TestSettings) one_file ∅))
              (document "{}" None))
    as (l & _ & Hl); [reflexivity|].
  exists l. rewrite Hl. reflexivity.
Defined.

Lemma setters_change_their_own_slot_witness :
  exists h',
    WithUpdater p1 None (at1 (empty_object None (Some failing_updater) None))
    = Some (p1, h')
    /\ h' !! 1%positive = Some (empty_object None None None).
Proof.
  destruct (proj1 (setters_change_their_own_slot
                     (at1 (empty_object None (Some failing_updater) None)) 1%positive
                     (empty_object None (Some failing_updater) None) eq_refl) None)
    as (h' & Hw & Hl & _).
  exists h'. split; [exact Hw|exact Hl].
Defined.

Lemma Read_closes_the_source_last_witness :
  exists o,
    test_Read (at1 validated) p1 (Some zero) = Some o
    /\ calls o = [CallReadAll; CallUnmarshal (list_byte_of_string jsonContent);
                  CallValidate; CallClose].
Proof.
  destruct (Read_closes_the_source_last test_Unmarshal (at1 validated) 1%positive
              validated (document jsonContent None) zero)
    as (o & before & Ho & Hcalls & Hbefore & _); try reflexivity.
  exists o. split; [exact Ho|]. rewrite Hcalls, Hbefore. reflexivity.
Defined.

(** The last run of the test: the document sets the log level and the
    origins, the updater sets the credentials, the validator is satisfied. *)
Lemma Read_success_witness :
  exists o,
    test_Read (at1 (composer (Some (document jsonContent None))
                             (Some credentials_updater) (Some TestValidator)))
              p1 (Some zero) = Some o
    /\ ret o = None
    /\ settings_after o
       = Some (set_Credentials "something" (set_Origins ["*"] (set_Level "Debug" zero))).
Proof.
  apply (Read_success test_Unmarshal _ 1%positive
           (composer (Some (document jsonContent None))
                     (Some credentials_updater) (Some TestValidator))
           (document jsonContent None) zero (list_byte_of_string jsonContent)
           (set_Origins ["*"] (set_Level "Debug" zero))
           (set_Credentials "something" (set_Origins ["*"] (set_Level "Debug" zero))));
    reflexivity.
Defined.

(** ** Runs in which the close of the source fails after another stage *)

(** The test's reader that reads nothing and fails to close: the decoder
    refuses the empty text, and [Read] returns the close failure, which is
    not an unmarshal-kind error and does not carry the decoder's cause. *)
Lemma malformed_document_close_failure :
  io_ReadAll (reader_of {| HasReadError := false; HasCloseError := true |}) = ([], None)
  /\ test_Unmarshal [] zero = (zero, Some (Foreign "unexpected end of JSON input"))
  /\ test_Read (at1 unclosable_empty) p1 (Some zero)
     = Some {| ret := Some (joinError [Pkg ClosingFile; close_error]);
               settings_after := Some zero;
               calls := [CallReadAll; CallUnmarshal []; CallClose] |}
  /\ errors_Is (joinError [Pkg ClosingFile; close_error]) UnmarshalingFile = false
  /\ (Foreign "unexpected end of JSON input" ∉ causes (joinError [Pkg ClosingFile; close_error])).
Proof.
  repeat split; try reflexivity.
  rewrite list_elem_of_In. unfold close_error. simpl. intuition discriminate.
Qed.

(** The test's reader that fails to read and fails to close: [Read] returns
    the close failure, which is not a read-kind error and does not carry the
    read failure. *)
Lemma read_failure_close_failure :
  io_ReadAll (reader_of {| HasReadError := true; HasCloseError := true |})
  = ([], Some (Foreign "read error"))
  /\ test_Read (at1 (unreadable true)) p1 (Some zero)
     = Some {| ret := Some (joinError [Pkg ClosingFile; close_error]);
               settings_after := Some zero;
               calls := [CallReadAll; CallClose] |}
  /\ errors_Is (joinError [Pkg ClosingFile; close_error]) ReadingFile = false
  /\ (Foreign "read error" ∉ causes (joinError [Pkg ClosingFile; close_error])).
Proof.
  repeat split; try reflexivity.
  rewrite list_elem_of_In. unfold close_error. simpl. intuition discriminate.
Qed.

(** No plugin attached and a well-formed document (the empty object) whose
    source fails to close: [Read] does not return nil. *)
Lemma without_plugins_close_failure :
  updater (empty_object (Some close_error) None None) = None
  /\ validator (empty_object (Some close_error) None None) = None
  /\ test_Unmarshal (list_byte_of_string "{}") zero = (zero, None)
  /\ test_Read (at1 (empty_object (Some close_error) None None)) p1 (Some zero)
     = Some {| ret := Some (joinError [Pkg ClosingFile; close_error]);
               settings_after := Some zero;
               calls := [CallReadAll; CallUnmarshal (list_byte_of_string "{}");
                         CallClose] |}
  /\ Some (joinError [Pkg ClosingFile; close_error]) <> None.
Proof. repeat split; try reflexivity. discriminate. Qed.

(** An updater that reports an error, on a source that fails to close: the
    updater is called and [Read] returns the close failure, which is not an
    update-kind error and does not carry the updater's error. *)
Lemma update_failure_close_failure :
  Update failing_updater zero = (zero, Some (Foreign "updater error"))
  /\ test_Read (at1 (empty_object (Some close_error) (Some failing_updater)
                                  (Some TestValidator))) p1 (Some zero)
     = Some {| ret := Some (joinError [Pkg ClosingFile; close_error]);
               settings_after := Some zero;
               calls := [CallReadAll; CallUnmarshal (list_byte_of_string "{}");
                         CallUpdate; CallClose] |}
  /\ errors_Is (joinError [Pkg ClosingFile; close_error]) UpdateSettings = false
  /\ (Foreign "updater error" ∉ causes (joinError [Pkg ClosingFile; close_error])).
Proof.
  repeat split; try reflexivity.
  rewrite list_elem_of_In. unfold close_error. simpl. intuition discriminate.
Qed.

(** The test's validator on the empty object reports two violations; on a
    source that fails to close, [Read] returns the close failure, which is
    not a validate-kind error, carries neither violation, and whose text
    contains neither. *)
Lemma validation_errors_close_failure :
  Validate TestValidator zero
  = (zero, Some (joinError [joinError [Level_required]; Credentials_required]))
  /\ test_Read (at1 (empty_object (Some close_error) None (Some TestValidator)))
               p1 (Some zero)
     = Some {| ret := Some (joinError [Pkg ClosingFile; close_error]);
               settings_after := Some zero;
               calls := [CallReadAll; CallUnmarshal (list_byte_of_string "{}");
                         CallValidate; CallClose] |}
  /\ errors_Is (joinError [Pkg ClosingFile; close_error]) ValidateSettings = false
  /\ (Level_required ∉ causes (joinError [Pkg ClosingFile; close_error]))
  /\ (Credentials_required ∉ causes (joinError [Pkg ClosingFile; close_error]))
  /\ Contains (Error (joinError [Pkg ClosingFile; close_error]))
              "Google.App.Credentials is required" = false
  /\ Contains (Error (joinError [Pkg ClosingFile; close_error]))
              "Global.Log.Level is required" = false.
Proof.
  repeat split; try reflexivity;
    rewrite list_elem_of_In;
    unfold close_error, Level_required, Credentials_required; simpl;
    intuition discriminate.
Qed.

(** ** Construction, configuration and reading together *)

Section Configuration.

Context {Settings : Type}.
Variable json_Unmarshal : list Byte.byte -> Settings -> Settings * option error.
Variable os_Open : string -> ReadCloser + error.

Implicit Types (h : heap Settings) (c : Composer Settings) (l : loc) (r : ReadCloser).

(** The constructor on a reader of the caller's own. *)
Lemma constructed_with_reader h r :
  exists l,
    NewComposerWithReader os_Open (Some r) h
    = {| new_ptr := Some l;
         new_err := None;
         new_heap := <[l := {| jsonReader := Some r; updater := None;
                               validator := None |}]> h;
         new_calls := [] |}
    /\ h !! l = None.
Proof.
  unfold NewComposerWithReader, alloc, heap in *. simpl.
  exists (fresh (dom h)). split; [reflexivity|]. apply not_elem_of_dom_1, is_fresh.
Qed.

(** X3.  Constructing with a reader of the caller's own never fails and
    never touches the file system, whatever the reader does later: the
    result is a pointer to a new Composer, at an address no Composer had,
    that holds the reader and neither plugin; the Composers that existed
    keep their structs. *)
Theorem NewComposerWithReader_given_reader h r :
  exists l,
    new_ptr (NewComposerWithReader os_Open (Some r) h) = Some l
    /\ new_err (NewComposerWithReader os_Open (Some r) h) = None
    /\ new_calls (NewComposerWithReader os_Open (Some r) h) = []
    /\ h !! l = None
    /\ new_heap (NewComposerWithReader os_Open (Some r) h) !! l
       = Some {| jsonReader := Some r; updater := None; validator := None |}
    /\ (forall l' c', h !! l' = Some c' ->
                      new_heap (NewComposerWithReader os_Open (Some r) h) !! l' = Some c').
Proof.
  destruct (constructed_with_reader h r) as (l & -> & Hfresh).
  exists l. cbn [new_ptr new_err new_calls new_heap]. unfold heap in *.
  split; [reflexivity|]. split; [reflexivity|]. split; [reflexivity|].
  split; [exact Hfresh|]. split; [apply lookup_insert_eq|].
  intros l' c' Hl'. rewrite lookup_insert_ne; [exact Hl'|]. congruence.
Qed.

(** What the constructor and the two setters, in either order, leave at the
    new address. *)
Lemma configured h r u v :
  exists l h',
    h !! l = None
    /\ h' !! l = Some {| jsonReader := Some r; updater := u; validator := v |}
    /\ (forall l' c', h !! l' = Some c' -> h' !! l' = Some c')
    /\ (forall settings,
          configure_and_Read json_Unmarshal os_Open h (Some r) u v settings
          = Read json_Unmarshal h' (Some l) settings)
    /\ (forall settings,
          configure_and_Read' json_Unmarshal os_Open h (Some r) u v settings
          = Read json_Unmarshal h' (Some l) settings).
Proof.
  unfold configure_and_Read, configure_and_Read', NewComposerWithReader, alloc,
    WithUpdater, WithValidator, heap in *. simpl.
  assert (Hfresh : h !! fresh (dom h) = None) by apply not_elem_of_dom_1, is_fresh.
  exists (fresh (dom h)).
  exists (<[fresh (dom h) := {| jsonReader := Some r; updater := u; validator := v |}]> h).
  split; [exact Hfresh|]. split; [apply lookup_insert_eq|].
  split; [intros l' c' Hl'; rewrite lookup_insert_ne; [exact Hl'|congruence]|].
  split; intros settings.
  - rewrite lookup_insert_eq. simpl. rewrite lookup_insert_eq. simpl.
    rewrite !insert_insert_eq. reflexivity.
  - rewrite lookup_insert_eq. simpl. rewrite lookup_insert_eq. simpl.
    rewrite !insert_insert_eq. reflexivity.
Qed.

(** X4.  Constructing with a reader, attaching an updater and a validator
    (either may be nil) and reading behaves as [Read] called on any Composer
    that holds exactly that reader and those two plugins: the outcome does
    not depend on the order of the two setters, on the Composers that
    already exist, or on the file system. *)
Theorem configure_and_Read_given_reader h r u v settings h0 l0 :
  h0 !! l0 = Some {| jsonReader := Some r; updater := u; validator := v |} ->
  configure_and_Read json_Unmarshal os_Open h (Some r) u v settings
  = Read json_Unmarshal h0 (Some l0) settings
  /\ configure_and_Read' json_Unmarshal os_Open h (Some r) u v settings
     = Read json_Unmarshal h0 (Some l0) settings.
Proof.
  intros Hl0.
  destruct (configured h r u v) as (l & h' & _ & Hl & _ & H1 & H2).
  rewrite H1, H2.
  destruct settings as [s|]; [|split; reflexivity].
  rewrite (Read_unguarded json_Unmarshal h' l _ r s Hl eq_refl).
  rewrite (Read_unguarded json_Unmarshal h0 l0 _ r s Hl0 eq_refl).
  split; reflexivity.
Qed.

(** X5.  When the default file cannot be opened, the constructor's pointer
    result is nil: either setter called through it panics (so does the
    whole configure-and-read sequence when the constructor's error is not
    checked), whereas [Read] called through it returns [ErrAppSettingsNil]
    and does nothing. *)
Theorem failed_construction_then_methods h cause :
  os_Open "appsettings.json" = inr cause ->
  new_ptr (NewComposer os_Open h) = None
  /\ (forall u, WithUpdater (new_ptr (NewComposer os_Open h)) u
                            (new_heap (NewComposer os_Open h)) = None)
  /\ (forall v, WithValidator (new_ptr (NewComposer os_Open h)) v
                              (new_heap (NewComposer os_Open h)) = None)
  /\ (forall u v settings,
        configure_and_Read json_Unmarshal os_Open h None u v settings = None)
  /\ (forall settings,
        Read json_Unmarshal (new_heap (NewComposer os_Open h))
             (new_ptr (NewComposer os_Open h)) settings
        = Some {| ret := Some (Pkg AppSettingsNil);
                  settings_after := settings; calls := [] |}).
Proof.
  intros Hopen.
  unfold configure_and_Read, NewComposer, NewComposerWithReader, DefaultAppSettingsFile.
  rewrite Hopen. simpl. repeat split.
Qed.

(** X12.  Two Composers constructed one after the other are two different
    structs: configuring the second with its setters leaves the first as
    the constructor made it, with its own reader and no plugin. *)
Theorem Composers_are_independent h r1 r2 u v :
  let k1 := NewComposerWithReader os_Open (Some r1) h in
  let k2 := NewComposerWithReader os_Open (Some r2) (new_heap k1) in
  exists l1 l2 h',
    new_ptr k1 = Some l1
    /\ new_ptr k2 = Some l2
    /\ l1 <> l2
    /\ (WithUpdater (new_ptr k2) u (new_heap k2)
        ≫= (fun '(sut, h1) => WithValidator sut v h1)) = Some (Some l2, h')
    /\ h' !! l1 = Some {| jsonReader := Some r1; updater := None; validator := None |}
    /\ h' !! l2 = Some {| jsonReader := Some r2; updater := u; validator := v |}.
Proof.
  cbv zeta.
  destruct (constructed_with_reader h r1) as (l1 & -> & F1).
  cbn [new_ptr new_heap].
  destruct (constructed_with_reader
              (<[l1 := {| jsonReader := Some r1; updater := None; validator := None |}]> h)
              r2) as (l2 & -> & F2).
  cbn [new_ptr new_heap].
  assert (Hne : l1 <> l2).
  { intros ->. unfold heap in *. rewrite lookup_insert_eq in F2. discriminate. }
  exists l1, l2. eexists.
  split; [reflexivity|]. split; [reflexivity|]. split; [exact Hne|].
  unfold WithUpdater, WithValidator, heap in *. simpl.
  rewrite lookup_insert_eq. simpl. rewrite lookup_insert_eq. simpl.
  split; [reflexivity|].
  rewrite !insert_insert_eq.
  split.
  - rewrite lookup_insert_ne by congruence. apply lookup_insert_eq.
  - apply lookup_insert_eq.
Qed.

End Configuration.

(** ** The shape of every outcome of Read *)

Section Outcomes.

Context {Settings : Type}.
Variable json_Unmarshal : list Byte.byte -> Settings -> Settings * option error.

Implicit Types (h : heap Settings) (c : Composer Settings) (r : ReadCloser).
Implicit Types (s : Settings) (l : loc).

(** Closes a goal whose hypothesis puts a call in a log that lacks it. *)
Ltac no_such_call := rewrite list_elem_of_In; simpl; intuition discriminate.

(** The five ways the steps of [Read] can end, by the first stage that
    fails. *)
Lemma Read_steps_cases c r s :
  let run := Read_steps json_Unmarshal c r (start s) in
  let data := fst (io_ReadAll r) in
  (exists e, returned (fst run) = Some (joinError [Pkg ReadingFile; e])
             /\ w_calls (snd run) = [CallReadAll])
  \/ (exists e, returned (fst run) = Some (joinError [Pkg UnmarshalingFile; e])
                /\ w_calls (snd run) = [CallReadAll; CallUnmarshal data])
  \/ (exists e, returned (fst run) = Some (joinError [Pkg UpdateSettings; e])
                /\ w_calls (snd run) = [CallReadAll; CallUnmarshal data; CallUpdate]
                /\ updater c <> None)
  \/ (exists e v, returned (fst run) = Some (joinError [Pkg ValidateSettings; e])
                  /\ w_calls (snd run)
                     = ([CallReadAll; CallUnmarshal data] ++ override_calls c)
                       ++ [CallValidate]
                  /\ validator c = Some v)
  \/ (returned (fst run) = None
      /\ w_calls (snd run)
         = ([CallReadAll; CallUnmarshal data] ++ override_calls c)
           ++ match validator c with Some _ => [CallValidate] | None => [] end).
Proof.
  cbv zeta.
  destruct (io_ReadAll r) as [data [e|]] eqn:Hread.
  { left. exists e. rewrite (steps_read_fails _ c r s data e Hread). split; reflexivity. }
  destruct (json_Unmarshal data s) as [s1 [e|]] eqn:Hdec.
  { right; left. exists e.
    rewrite (steps_decode_fails _ c r s data s1 e Hread Hdec). split; reflexivity. }
  destruct (override c s1) as [s2 [e|]] eqn:Hupd.
  { right; right; left. exists e.
    rewrite (steps_override_fails _ c r s data s1 s2 e Hread Hdec Hupd).
    split; [reflexivity|]. split; [reflexivity|].
    unfold override in Hupd. destruct (updater c); [discriminate|]. discriminate. }
  rewrite (steps_validate _ c r s data s1 s2 Hread Hdec Hupd).
  destruct (validator c) as [v|].
  - destruct (Validate v s2) as [s3 [errs|]].
    + right; right; right; left. exists errs, v. repeat split.
    + right; right; right; right. split; reflexivity.
  - right; right; right; right. split; [reflexivity|]. simpl. rewrite app_nil_r. reflexivity.
Qed.

(** X6.  Every error [Read] returns carries one of the package's kinds:
    it is one of the three guard sentinels, returned without any call
    made, or a join of exactly two errors, the first of which is the
    sentinel of the close, read, unmarshal, update or validate stage.  A
    cause is never returned bare, and [ErrOpeningFile] is never returned
    by [Read]. *)
Theorem Read_error_taxonomy h as_ settings o :
  Read json_Unmarshal h as_ settings = Some o ->
  match ret o with
  | None => True
  | Some (Pkg k) =>
      k ∈ [AppSettingsNil; SettingsParamNil; ReaderNil] /\ calls o = []
  | Some (joinError [Pkg k; cause]) =>
      k ∈ [ClosingFile; ReadingFile; UnmarshalingFile; UpdateSettings; ValidateSettings]
  | Some _ => False
  end.
Proof.
  unfold Read. intros HRead.
  destruct as_ as [l|]; [|injection HRead as <-; split; [set_solver|reflexivity]].
  destruct settings as [s|]; [|injection HRead as <-; split; [set_solver|reflexivity]].
  destruct (h !! l) as [c|] eqn:Hl; [|discriminate]. simpl in HRead.
  destruct (jsonReader c) as [r|] eqn:Hr;
    [|injection HRead as <-; split; [set_solver|reflexivity]].
  pose proof (Read_unguarded json_Unmarshal h l c r s Hl Hr) as Hun.
  unfold Read in Hun. rewrite Hl in Hun. simpl in Hun. rewrite Hr in Hun.
  rewrite Hun in HRead. injection HRead as <-.
  destruct (Read_steps json_Unmarshal c r (start s)) as [[[]|err] w1] eqn:Hsteps.
  rewrite finish_eq. cbn [ret].
  destruct (reader_Close r) as [closeErr|]; [set_solver|].
  pose proof (Read_steps_cases c r s) as Hcases. cbv zeta in Hcases.
  rewrite Hsteps in Hcases. cbn [fst snd returned] in Hcases.
  destruct Hcases as [(e & -> & _)|[(e & -> & _)|[(e & -> & _)|[(e & v & -> & _)|[-> _]]]]];
    try exact I; set_solver.
Qed.

(** X7.  Past the guards, [Read] calls each collaborator at most once and
    in one fixed order: the calls made are a subsequence of read, decode
    (of the bytes read), update, validate, close.  A plugin is called only
    if it is attached. *)
Theorem Read_stage_order h l c r s o :
  h !! l = Some c ->
  jsonReader c = Some r ->
  Read json_Unmarshal h (Some l) (Some s) = Some o ->
  sublist (calls o)
          [CallReadAll; CallUnmarshal (fst (io_ReadAll r)); CallUpdate; CallValidate;
           CallClose]
  /\ (CallUpdate ∈ calls o -> updater c <> None)
  /\ (CallValidate ∈ calls o -> validator c <> None).
Proof.
  intros Hl Hr HRead.
  rewrite (Read_unguarded json_Unmarshal h l c r s Hl Hr) in HRead.
  injection HRead as <-.
  pose proof (Read_steps_cases c r s) as Hcases. cbv zeta in Hcases.
  destruct (Read_steps json_Unmarshal c r (start s)) as [[[]|err] w1].
  rewrite finish_eq. cbn [calls fst snd returned] in *.
  unfold override_calls in Hcases.
  destruct Hcases as [(e & _ & ->)|[(e & _ & ->)|[(e & _ & -> & Hu)
                     |[(e & v & _ & -> & Hv)|[_ ->]]]]].
  - split; [|split; intros Hin; exfalso; revert Hin; no_such_call].
    repeat first [apply sublist_skip | apply sublist_cons | apply sublist_nil].
  - split; [|split; intros Hin; exfalso; revert Hin; no_such_call].
    repeat first [apply sublist_skip | apply sublist_cons | apply sublist_nil].
  - split; [|split; [intros _; exact Hu|intros Hin; exfalso; revert Hin; no_such_call]].
    repeat first [apply sublist_skip | apply sublist_cons | apply sublist_nil].
  - rewrite Hv. destruct (updater c) as [u|]; simpl.
    + split; [|split; congruence].
      repeat first [apply sublist_skip | apply sublist_cons | apply sublist_nil].
    + split; [|split; [intros Hin; exfalso; revert Hin; no_such_call|congruence]].
      repeat first [apply sublist_skip | apply sublist_cons | apply sublist_nil].
  - destruct (updater c) as [u|], (validator c) as [v|]; simpl;
      (split; [repeat first [apply sublist_skip | apply sublist_cons | apply sublist_nil]|]);
      split; first [congruence | intros Hin; exfalso; revert Hin; no_such_call].
Qed.

End Outcomes.

(** ** ReadSettingsFromFileAndEnv *)

Section Earlier.

Context {Settings : Type}.
Variable json_Unmarshal : list Byte.byte -> Settings -> Settings * option error.
Variable os_Open : string -> ReadCloser + error.
Variable envconfig_Init : Settings -> Settings * option error.
Variable envconfig_InitWithOptions : Settings -> Settings * option error.
Variable validator_Validate : Settings -> Settings * option error.

Implicit Types (h : heap Settings) (s : Settings) (file : ReadCloser).
Implicit Types (w : World Settings).

(** The closure of the [if] statement calls [Close] once and changes
    nothing else in the world. *)
Lemma deferred_Close_of_if_world file w :
  snd (deferred_Close_of_if file w) = logged CallClose w.
Proof.
  unfold deferred_Close_of_if, call_Close. destruct (reader_Close file); reflexivity.
Qed.

(** X8.  When [appsettings.json] cannot be opened, each version of
    [ReadSettingsFromFileAndEnv] returns the operating system's cause
    joined after a new error with the text [failed to open appsettings
    file], so that the text of the result is that text, a newline and the
    cause's text; the open is the only call made and the settings value is
    untouched. *)
Theorem ReadSettingsFromFileAndEnv_open_failure s v cause :
  os_Open "appsettings.json" = inr cause ->
  V1.ReadSettingsFromFileAndEnv json_Unmarshal os_Open envconfig_Init s
  = {| ret := Some (joinError [Foreign "failed to open appsettings file"; cause]);
       settings_after := Some s;
       calls := [CallOpen "appsettings.json"] |}
  /\ V2.ReadSettingsFromFileAndEnv json_Unmarshal os_Open envconfig_InitWithOptions
                                   validator_Validate s
     = {| ret := Some (joinError [Foreign "failed to open appsettings file"; cause]);
          settings_after := Some s;
          calls := [CallOpen "appsettings.json"] |}
  /\ V3.ReadSettingsFromFileAndEnv json_Unmarshal os_Open envconfig_InitWithOptions s v
     = {| ret := Some (joinError [Foreign "failed to open appsettings file"; cause]);
          settings_after := Some s;
          calls := [CallOpen "appsettings.json"] |}
  /\ Error (joinError [Foreign "failed to open appsettings file"; cause])
     = "failed to open appsettings file" +:+ String "010"%char EmptyString +:+ Error cause.
Proof.
  intros Hopen.
  unfold V1.ReadSettingsFromFileAndEnv, V2.ReadSettingsFromFileAndEnv,
    V3.ReadSettingsFromFileAndEnv.
  rewrite Hopen. repeat split.
Qed.

(** X9.  No version of [ReadSettingsFromFileAndEnv] reports a failure to
    close the file.  The file is closed, as the last call, but the deferred
    closure stores the close failure in a variable that is not the
    function's result: the whole outcome (result, settings and calls) is
    the same as for a file that closes without error. *)
Theorem ReadSettingsFromFileAndEnv_ignores_Close_failure
    (os_Open' : string -> ReadCloser + error) file close s v :
  os_Open "appsettings.json" = inl file ->
  os_Open' "appsettings.json" = inl (with_Close close file) ->
  V1.ReadSettingsFromFileAndEnv json_Unmarshal os_Open' envconfig_Init s
  = V1.ReadSettingsFromFileAndEnv json_Unmarshal os_Open envconfig_Init s
  /\ V2.ReadSettingsFromFileAndEnv json_Unmarshal os_Open' envconfig_InitWithOptions
                                   validator_Validate s
     = V2.ReadSettingsFromFileAndEnv json_Unmarshal os_Open envconfig_InitWithOptions
                                     validator_Validate s
  /\ V3.ReadSettingsFromFileAndEnv json_Unmarshal os_Open' envconfig_InitWithOptions s v
     = V3.ReadSettingsFromFileAndEnv json_Unmarshal os_Open envconfig_InitWithOptions s v
  /\ last (calls (V1.ReadSettingsFromFileAndEnv json_Unmarshal os_Open' envconfig_Init s))
     = Some CallClose
  /\ last (calls (V2.ReadSettingsFromFileAndEnv json_Unmarshal os_Open'
                     envconfig_InitWithOptions validator_Validate s))
     = Some CallClose
  /\ last (calls (V3.ReadSettingsFromFileAndEnv json_Unmarshal os_Open'
                     envconfig_InitWithOptions s v))
     = Some CallClose.
Proof.
  intros Hopen Hopen'.
  unfold V1.ReadSettingsFromFileAndEnv, V2.ReadSettingsFromFileAndEnv,
    V3.ReadSettingsFromFileAndEnv.
  rewrite Hopen, Hopen'.
  change (V1.steps json_Unmarshal envconfig_Init (with_Close close file))
    with (V1.steps json_Unmarshal envconfig_Init file).
  change (V2.steps json_Unmarshal envconfig_InitWithOptions validator_Validate
            (with_Close close file))
    with (V2.steps json_Unmarshal envconfig_InitWithOptions validator_Validate file).
  change (V3.steps json_Unmarshal envconfig_InitWithOptions (with_Close close file) v)
    with (V3.steps json_Unmarshal envconfig_InitWithOptions file v).
  destruct (V1.steps _ _ file _) as [flow1 w1].
  destruct (V2.steps _ _ _ file _) as [flow2 w2].
  destruct (V3.steps _ _ file v _) as [flow3 w3].
  pose proof (deferred_Close_of_if_world file) as Hw.
  pose proof (deferred_Close_of_if_world (with_Close close file)) as Hw'.
  pose proof (Hw w1) as H1. pose proof (Hw' w1) as H1'.
  pose proof (Hw w2) as H2. pose proof (Hw' w2) as H2'.
  pose proof (Hw w3) as H3. pose proof (Hw' w3) as H3'.
  destruct (deferred_Close_of_if file w1), (deferred_Close_of_if (with_Close close file) w1).
  destruct (deferred_Close_of_if file w2), (deferred_Close_of_if (with_Close close file) w2).
  destruct (deferred_Close_of_if file w3), (deferred_Close_of_if (with_Close close file) w3).
  simpl in *. subst. unfold logged. simpl.
  repeat split; apply last_snoc.
Qed.

(** What the constructor on the default source and the two setters leave
    at the new address, when the file opens. *)
Lemma configured_default h file u v :
  os_Open "appsettings.json" = inl file ->
  exists l h',
    h' !! l = Some {| jsonReader := Some file; updater := u; validator := v |}
    /\ forall settings,
         configure_and_Read json_Unmarshal os_Open h None u v settings
         = Read json_Unmarshal h' (Some l) settings.
Proof.
  intros Hopen.
  unfold configure_and_Read, NewComposerWithReader, DefaultAppSettingsFile, alloc,
    WithUpdater, WithValidator, heap in *.
  rewrite Hopen. simpl.
  exists (fresh (dom h)).
  exists (<[fresh (dom h) := {| jsonReader := Some file; updater := u; validator := v |}]> h).
  split; [apply lookup_insert_eq|]. intros settings.
  rewrite lookup_insert_eq. simpl. rewrite lookup_insert_eq. simpl.
  rewrite !insert_insert_eq. reflexivity.
Qed.

(** Unfolds a run of the stages and splits on what each collaborator
    answers. *)
Ltac run_stages :=
  unfold V1.steps, V2.steps, V3.steps, Read_steps, read_and_decode, start, finish,
    deferred_Close, deferred_Close_of_if, call_ReadAll, call_Unmarshal, call_Update,
    call_Validate, call_Close, return_if_error, return_, logged, mbind, mret,
    Exec_bind, Exec_ret, fmt_Errorf;
  simpl;
  repeat match goal with
         | |- context [io_ReadAll ?f] => destruct (io_ReadAll f) as [? [?|]]; simpl
         | |- context [json_Unmarshal ?d ?x] =>
             destruct (json_Unmarshal d x) as [? [?|]]; simpl
         | |- context [envconfig_Init ?x] => destruct (envconfig_Init x) as [? [?|]]; simpl
         | |- context [envconfig_InitWithOptions ?x] =>
             destruct (envconfig_InitWithOptions x) as [? [?|]]; simpl
         | |- context [validator_Validate ?x] =>
             destruct (validator_Validate x) as [? [?|]]; simpl
         | |- context [Validate ?v ?x] => destruct (Validate v x) as [? [?|]]; simpl
         end.

(** X10.  When [appsettings.json] opens and closes without error, a Composer
    on the default source, configured with an updater that calls envconfig
    and with the same validator, reads as [ReadSettingsFromFileAndEnv] did:
    the settings value left behind is the same, the calls made after the
    open are the same, the result is nil in the same cases, and an error has
    the same text, whichever stage failed.  This holds for the version that
    takes a validator, for the version with the validator package built in
    against a Composer whose validator calls that package, and for the
    first version against a Composer without a validator. *)
Theorem Composer_reads_as_ReadSettingsFromFileAndEnv h file s v :
  os_Open "appsettings.json" = inl file ->
  reader_Close file = None ->
  (exists o,
      configure_and_Read json_Unmarshal os_Open h None
        (Some {| Update := envconfig_InitWithOptions |}) v (Some s) = Some o
      /\ settings_after o
         = settings_after (V3.ReadSettingsFromFileAndEnv json_Unmarshal os_Open
                             envconfig_InitWithOptions s v)
      /\ calls (V3.ReadSettingsFromFileAndEnv json_Unmarshal os_Open
                  envconfig_InitWithOptions s v)
         = CallOpen "appsettings.json" :: calls o
      /\ Error <$> ret o
         = Error <$> ret (V3.ReadSettingsFromFileAndEnv json_Unmarshal os_Open
                            envconfig_InitWithOptions s v))
  /\ (exists o,
      configure_and_Read json_Unmarshal os_Open h None
        (Some {| Update := envconfig_InitWithOptions |})
        (Some {| Validate := validator_Validate |}) (Some s) = Some o
      /\ settings_after o
         = settings_after (V2.ReadSettingsFromFileAndEnv json_Unmarshal os_Open
                             envconfig_InitWithOptions validator_Validate s)
      /\ calls (V2.ReadSettingsFromFileAndEnv json_Unmarshal os_Open
                  envconfig_InitWithOptions validator_Validate s)
         = CallOpen "appsettings.json" :: calls o
      /\ Error <$> ret o
         = Error <$> ret (V2.ReadSettingsFromFileAndEnv json_Unmarshal os_Open
                            envconfig_InitWithOptions validator_Validate s))
  /\ (exists o,
      configure_and_Read json_Unmarshal os_Open h None
        (Some {| Update := envconfig_Init |}) None (Some s) = Some o
      /\ settings_after o
         = settings_after (V1.ReadSettingsFromFileAndEnv json_Unmarshal os_Open
                             envconfig_Init s)
      /\ calls (V1.ReadSettingsFromFileAndEnv json_Unmarshal os_Open envconfig_Init s)
         = CallOpen "appsettings.json" :: calls o
      /\ Error <$> ret o
         = Error <$> ret (V1.ReadSettingsFromFileAndEnv json_Unmarshal os_Open
                            envconfig_Init s)).
Proof.
  intros Hopen Hclose. split; [|split].
  - destruct (configured_default h file (Some {| Update := envconfig_InitWithOptions |}) v
                Hopen) as (l & h' & Hl & Hread).
    eexists. split.
    { rewrite Hread. apply (Read_unguarded json_Unmarshal h' l _ file s Hl eq_refl). }
    unfold V3.ReadSettingsFromFileAndEnv. rewrite Hopen.
    run_stages; rewrite ?Hclose; simpl;
      try (destruct v as [v|]; simpl; run_stages; rewrite ?Hclose; simpl);
      repeat split.
  - destruct (configured_default h file (Some {| Update := envconfig_InitWithOptions |})
                (Some {| Validate := validator_Validate |}) Hopen)
      as (l & h' & Hl & Hread).
    eexists. split.
    { rewrite Hread. apply (Read_unguarded json_Unmarshal h' l _ file s Hl eq_refl). }
    unfold V2.ReadSettingsFromFileAndEnv. rewrite Hopen.
    run_stages; rewrite ?Hclose; simpl; repeat split.
  - destruct (configured_default h file (Some {| Update := envconfig_Init |}) None
                Hopen) as (l & h' & Hl & Hread).
    eexists. split.
    { rewrite Hread. apply (Read_unguarded json_Unmarshal h' l _ file s Hl eq_refl). }
    unfold V1.ReadSettingsFromFileAndEnv. rewrite Hopen.
    run_stages; rewrite ?Hclose; simpl; repeat split.
Qed.

End Earlier.

(** ** The validator and the updater of the test *)

(** X11.  The test's [Validate] leaves the settings as they are and reports
    exactly the required fields that are empty, the log level before the
    credentials: it returns nil if and only if both are set.  After the
    test's [Update] with a log level and credentials to set, it returns nil
    whatever the settings were. *)
Theorem TestSettings_Validate_reports_empty_fields (s : TestSettings) :
  fst (TestSettings_Validate s) = s
  /\ (snd (TestSettings_Validate s) = None
      <-> is_empty (Level (Log (Global s))) = false
          /\ is_empty (Credentials (App (Google s))) = false)
  /\ (forall errs,
        snd (TestSettings_Validate s) = Some errs ->
        causes errs
        = (if is_empty (Level (Log (Global s))) then [Level_required] else [])
          ++ (if is_empty (Credentials (App (Google s))) then [Credentials_required]
              else []))
  /\ (forall u : TestUpdater,
        is_empty (LogLevel u) = false ->
        is_empty (GoogleCredentials u) = false ->
        snd (TestSettings_Validate (fst (TestUpdater_Update u s))) = None).
Proof.
  split; [reflexivity|]. split; [|split].
  - unfold TestSettings_Validate.
    destruct (is_empty (Level (Log (Global s)))),
             (is_empty (Credentials (App (Google s)))); simpl;
      (split;
       [intros H; first [discriminate H | split; reflexivity]
       |intros [H1 H2]; first [discriminate H1 | discriminate H2 | reflexivity]]).
  - intros errs. unfold TestSettings_Validate.
    destruct (is_empty (Level (Log (Global s)))),
             (is_empty (Credentials (App (Google s)))); simpl;
      intros [= <-]; reflexivity.
  - intros u HL HC. unfold TestSettings_Validate, TestUpdater_Update.
    rewrite HL, HC. simpl. rewrite HL, HC. reflexivity.
Qed.

(** ** The statements of the last sections on the fixtures of the test *)

Lemma configure_and_Read_given_reader_witness :
  configure_and_Read test_Unmarshal no_files ∅ (Some (document jsonContent None))
                     (Some credentials_updater) (Some TestValidator) (Some zero)
  = test_Read (at1 (composer (Some (document jsonContent None))
                             (Some credentials_updater) (Some TestValidator)))
              p1 (Some zero).
Proof.
  apply (configure_and_Read_given_reader test_Unmarshal no_files ∅
           (document jsonContent None) (Some credentials_updater) (Some TestValidator)
           (Some zero)
           (at1 (composer (Some (document jsonContent None))
                          (Some credentials_updater) (Some TestValidator)))
           1%positive).
  reflexivity.
Defined.

Lemma failed_construction_then_methods_witness :
  WithUpdater (new_ptr (NewComposer (Settings := TestSettings) no_files ∅))
              (Some credentials_updater)
              (new_heap (NewComposer (Settings := TestSettings) no_files ∅)) = None
  /\ test_Read (new_heap (NewComposer no_files ∅))
               (new_ptr (NewComposer (Settings := TestSettings) no_files ∅)) (Some zero)
     = Some {| ret := Some (Pkg AppSettingsNil); settings_after := Some zero; calls := [] |}.
Proof.
  destruct (failed_construction_then_methods test_Unmarshal no_files ∅
              (Foreign "open appsettings.json: no such file or directory") eq_refl)
    as (_ & Hu & _ & _ & HRead).
  split; [apply Hu|apply HRead].
Defined.

Lemma Read_error_taxonomy_witness :
  exists o,
    test_Read (at1 (unreadable true)) p1 (Some zero) = Some o
    /\ match ret o with
       | Some (joinError [Pkg k; _]) =>
           k ∈ [ClosingFile; ReadingFile; UnmarshalingFile; UpdateSettings;
                ValidateSettings]
       | _ => False
       end.
Proof.
  eexists. split; [reflexivity|].
  exact (Read_error_taxonomy test_Unmarshal (at1 (unreadable true)) p1 (Some zero)
           _ eq_refl).
Defined.

Lemma Read_stage_order_witness :
  exists o,
    test_Read (at1 validated) p1 (Some zero) = Some o
    /\ sublist (calls o)
               [CallReadAll; CallUnmarshal (list_byte_of_string jsonContent); CallUpdate;
                CallValidate; CallClose]
    /\ (CallUpdate ∉ calls o).
Proof.
  eexists. split; [reflexivity|].
  destruct (Read_stage_order test_Unmarshal (at1 validated) 1%positive validated
              (document jsonContent None) zero _ eq_refl eq_refl eq_refl)
    as (Hsub & Hu & _).
  split; [exact Hsub|].
  intros Hin. apply (Hu Hin). reflexivity.
Defined.

Lemma ReadSettingsFromFileAndEnv_open_failure_witness :
  Error <$> ret (V3.ReadSettingsFromFileAndEnv test_Unmarshal no_files
                   (Update credentials_updater) zero (Some TestValidator))
  = Some ("failed to open appsettings file" +:+ String "010"%char EmptyString
          +:+ "open appsettings.json: no such file or directory").
Proof.
  destruct (ReadSettingsFromFileAndEnv_open_failure test_Unmarshal no_files
              (Update credentials_updater) (Update credentials_updater)
              TestSettings_Validate zero (Some TestValidator)
              (Foreign "open appsettings.json: no such file or directory") eq_refl)
    as (_ & _ & -> & _).
  reflexivity.
Defined.

Lemma ReadSettingsFromFileAndEnv_ignores_Close_failure_witness :
  V3.ReadSettingsFromFileAndEnv test_Unmarshal unclosable_file
    (Update credentials_updater) zero None
  = {| ret := None;
       settings_after := Some (set_Credentials "something" zero);
       calls := [CallOpen "appsettings.json"; CallReadAll;
                 CallUnmarshal (list_byte_of_string "{}"); CallUpdate; CallClose] |}.
Proof.
  destruct (ReadSettingsFromFileAndEnv_ignores_Close_failure test_Unmarshal one_file
              (Update credentials_updater) (Update credentials_updater)
              TestSettings_Validate unclosable_file (document "{}" None)
              (Some close_error) zero None eq_refl eq_refl)
    as (_ & _ & -> & _).
  reflexivity.
Defined.

Lemma Composer_reads_as_ReadSettingsFromFileAndEnv_witness :
  exists o,
    configure_and_Read test_Unmarshal test_file ∅ None (Some credentials_updater)
                       (Some TestValidator) (Some zero) = Some o
    /\ ret o = None
    /\ settings_after o
       = settings_after (V3.ReadSettingsFromFileAndEnv test_Unmarshal test_file
                           (Update credentials_updater) zero (Some TestValidator))
    /\ settings_after o
       = Some (set_Credentials "something" (set_Origins ["*"] (set_Level "Debug" zero))).
Proof.
  destruct (proj1 (Composer_reads_as_ReadSettingsFromFileAndEnv test_Unmarshal test_file
                     (Update credentials_updater) (Update credentials_updater)
                     TestSettings_Validate ∅
                     (document jsonContent None) zero (Some TestValidator)
                     eq_refl eq_refl))
    as (o & Ho & Hs & _ & He).
  exists o. split; [exact Ho|]. split.
  - destruct (ret o); [discriminate He|reflexivity].
  - split; [exact Hs|]. rewrite Hs. reflexivity.
Defined.
